(** * The two MCP adapter servers (developer adapter, QA adapter)

    A shallow embedding of [mcp/claude-code-developer/server.py] and
    [mcp/gemini-qa-agent/server.py]: the tool registries, the dispatcher
    [call_tool], and every tool handler, over an explicit model of the
    operating system the handlers call into.

    - A Python [str] is a list of Unicode code points ([list N]), so that
      slicing ([s[:2000]]), [re.sub] and [len] count what Python counts.
    - A handler is a computation in a state-and-exception monad [M]: the
      state holds the process working directory and the trace of every call
      made to the operating system; a Python exception is the [Raise] result.
    - What the operating system and the Python runtime answer is given by a
      [World]: one function per primitive, indexed by the time of the call, so
      that every interleaving of answers (missing files, failing launches,
      timeouts, any exit status) is some world. *)

From Stdlib Require Import NArith ZArith Lia.
From Stdlib Require Import Strings.String Strings.Ascii.
From stdpp Require Import gmap list.

(** ** Python strings *)

Abbreviation str := (list N).

(** [utf8] reads a string literal of this file (UTF-8 bytes, with the escape
    [\n] of the Python sources) as the list of its code points. *)
Fixpoint utf8 (s : string) : str :=
  match s with
  | EmptyString => []
  | String a r =>
      let b := N_of_ascii a in
      if (b =? 92)%N then
        match r with
        | String "n"%char r1 => 10%N :: utf8 r1
        | _ => b :: utf8 r
        end
      else if (b <? 128)%N then b :: utf8 r
      else if (b <? 224)%N then
        match r with
        | String a1 r1 =>
            N.lor (N.shiftl (N.land b 31) 6) (N.land (N_of_ascii a1) 63) :: utf8 r1
        | _ => [b]
        end
      else if (b <? 240)%N then
        match r with
        | String a1 (String a2 r2) =>
            N.lor (N.shiftl (N.land b 15) 12)
              (N.lor (N.shiftl (N.land (N_of_ascii a1) 63) 6)
                     (N.land (N_of_ascii a2) 63)) :: utf8 r2
        | _ => [b]
        end
      else
        match r with
        | String a1 (String a2 (String a3 r3)) =>
            N.lor (N.shiftl (N.land b 7) 18)
              (N.lor (N.shiftl (N.land (N_of_ascii a1) 63) 12)
                 (N.lor (N.shiftl (N.land (N_of_ascii a2) 63) 6)
                        (N.land (N_of_ascii a3) 63))) :: utf8 r3
        | _ => [b]
        end
  end.
Arguments utf8 _%_string : simpl never.

Notation "'u' s" := (utf8 s%string) (at level 1, s at level 0, only parsing).

(** [sep.join(l)] *)
Fixpoint join (sep : str) (l : list str) : str :=
  match l with
  | [] => []
  | [s] => s
  | s :: rest => s ++ sep ++ join sep rest
  end.

(** [s * n] *)
Fixpoint str_mul (s : str) (n : nat) : str :=
  match n with
  | O => []
  | S n' => s ++ str_mul s n'
  end.

Fixpoint digits (d : Decimal.uint) : str :=
  match d with
  | Decimal.Nil => []
  | Decimal.D0 d => 48%N :: digits d
  | Decimal.D1 d => 49%N :: digits d
  | Decimal.D2 d => 50%N :: digits d
  | Decimal.D3 d => 51%N :: digits d
  | Decimal.D4 d => 52%N :: digits d
  | Decimal.D5 d => 53%N :: digits d
  | Decimal.D6 d => 54%N :: digits d
  | Decimal.D7 d => 55%N :: digits d
  | Decimal.D8 d => 56%N :: digits d
  | Decimal.D9 d => 57%N :: digits d
  end.

(** [str(n)] for a non-negative [int] *)
Definition str_of_nat (n : nat) : str := digits (Nat.to_uint n).

Definition str_eqb (a b : str) : bool := bool_decide (a = b).

(** [s in l] for a list of strings *)
Definition str_in (s : str) (l : list str) : bool := bool_decide (s ∈ l).

(** [p] is a prefix of [s]: [s.startswith(p)] *)
Fixpoint startswith (s p : str) {struct p} : bool :=
  match p, s with
  | [], _ => true
  | c :: p', d :: s' => (c =? d)%N && startswith s' p'
  | _ :: _, [] => false
  end.

(** [s.count(c)] for a one-character [c] *)
Definition count_char (c : N) (s : str) : nat :=
  length (filter (λ d, d = c) s).

(** [s.replace(old, '')]: the occurrences of [old] are removed, found from the
    left and without overlap. [skip] is the number of characters of the
    occurrence being removed that are still ahead. With [old] empty Python
    returns [s]. *)
Fixpoint remove_from (old : str) (skip : nat) (s : str) : str :=
  match s with
  | [] => []
  | c :: s' =>
      match skip with
      | S k => remove_from old k s'
      | O => if startswith s old then remove_from old (length old - 1) s'
             else c :: remove_from old 0 s'
      end
  end.

Definition str_remove (old s : str) : str :=
  match old with
  | [] => s
  | _ => remove_from old 0 s
  end.

(** [s] contains [t]: [t in s] *)
Definition contains (s t : str) : Prop := ∃ pre post, s = pre ++ t ++ post.

(** [s.endswith(t)] *)
Definition endswith (s t : str) : Prop := ∃ pre, s = pre ++ t.

(** ** Paths ([posixpath]) *)

Definition SEP : N := 47.   (* '/' *)
Definition DOT : N := 46.   (* '.' *)

(** [s.rfind(c) + 1] for a one-character [c]: the number of characters up to
    and including the last [c], 0 when there is none. *)
Fixpoint rfind1 (c : N) (s : str) : nat :=
  match s with
  | [] => 0
  | d :: s' =>
      match rfind1 c s' with
      | O => if (d =? c)%N then 1 else 0
      | S k => S (S k)
      end
  end.

(** [os.path.basename(p)]: [i = p.rfind('/') + 1; return p[i:]] *)
Definition basename (p : str) : str := drop (rfind1 SEP p) p.

(** [genericpath._splitext]: the extension starts at the last dot of the last
    path component, unless only dots come before it in that component. *)
Definition splitext (p : str) : str * str :=
  let sep1 := rfind1 SEP p in          (* sepIndex + 1 *)
  let dot1 := rfind1 DOT p in          (* dotIndex + 1 *)
  if bool_decide (sep1 < dot1) then
    (* the characters p[sepIndex+1 : dotIndex] *)
    let lead := take (dot1 - 1 - sep1) (drop sep1 p) in
    if forallb (λ c, (c =? DOT)%N) lead then (p, [])
    else (take (dot1 - 1) p, drop (dot1 - 1) p)
  else (p, []).

(** [os.path.join(a, b)] *)
Definition path_join (a b : str) : str :=
  if startswith b [SEP] then b
  else match last a with
       | None => b
       | Some c => if (c =? SEP)%N then a ++ b else a ++ [SEP] ++ b
       end.

(** ** Values, arguments and envelopes *)

(** The values of an argument mapping ([Dict[str, Any]]). Every property of
    every input schema is declared a string or a boolean. *)
Inductive value :=
| VStr (s : str)
| VBool (b : bool).

#[global] Instance value_eq_dec : EqDecision value.
Proof. solve_decision. Defined.

(** [f"{v}"] *)
Definition fmt (v : value) : str :=
  match v with
  | VStr s => s
  | VBool true => u "True"
  | VBool false => u "False"
  end.

(** [if v:] *)
Definition truthy (v : value) : bool :=
  match v with
  | VStr s => negb (bool_decide (s = []))
  | VBool b => b
  end.

Abbreviation Args := (gmap str value).

Record TextContent := { type : str; text : str }.

(** [subprocess.CompletedProcess] *)
Record CompletedProcess := { returncode : Z; stdout : str; stderr : str }.

(** ** Exceptions

    Every constructor is a subclass of [Exception]; [TimeoutExpired] is the one
    class a handler names in an [except] clause. *)
Inductive exn :=
| TimeoutExpired (cmd : list str) (timeout : nat)
| KeyError (key : str)
| ValueError (msg : str)
| OtherError (cls : str) (msg : str).

(** ** The world *)

(** The calls a handler makes to the operating system. *)
Inductive event :=
| EExists (p : str)
| EIsFile (p : str)
| EIsDir (p : str)
| ERead (p : str)
| EWrite (p content : str)
| EMakedirs (p : str)
| EGetcwd
| EChdir (d : str)
| ERun (cmd : list str) (dir : option str) (timeout : option nat)
| EWalk (top : str)
| EGlob (pattern : str).

(** A directory as [os.walk] finds it: its sub-directories by name and its
    file names; [Unlistable] is a directory that cannot be listed or a
    symbolic link to one ([os.walk] names it in the listing of its parent and
    yields nothing for it). *)
#[warnings="-register-all"]
Inductive dirtree :=
| Unlistable
| Dir (subdirs : list (str * dirtree)) (files : list str).

(** The answers of the operating system and of the Python runtime. The first
    argument of an operating-system primitive is the time of the call (the
    number of calls made before it). *)
Record World := {
  (* os.path.exists / isfile / isdir: never raise on a str *)
  path_exists : nat → str → bool;
  path_isfile : nat → str → bool;
  path_isdir : nat → str → bool;
  (* with open(p, 'r', encoding='utf-8') as f: f.read() *)
  read_text : nat → str → exn + str;
  (* with open(p, 'w', encoding='utf-8') as f: f.write(content) *)
  write_text : nat → str → str → option exn;
  (* os.makedirs(p, exist_ok=True) *)
  makedirs : nat → str → option exn;
  (* os.getcwd() fails when the working directory is gone *)
  getcwd_error : nat → option exn;
  (* os.chdir(d) from the working directory c: the new working directory *)
  chdir_to : nat → str → str → exn + str;
  (* subprocess.run(cmd, capture_output=True, text=True, timeout=t, cwd=d):
     the completed process, or the exception raised (TimeoutExpired when the
     wait expires, an OSError when the binary cannot be launched) *)
  run_process : nat → list str → option str → option nat → exn + CompletedProcess;
  (* the directory tree that os.walk(top) traverses *)
  walk_tree : nat → str → dirtree;
  (* glob.glob(pattern, recursive=True) *)
  glob_paths : nat → str → exn + list str;
  (* str.lower() *)
  str_lower : str → str;
  (* repr() of a str and of a list of str *)
  repr_str : str → str;
  repr_list : list str → str
}.

(** [str(e)] *)
Definition exn_str (w : World) (e : exn) : str :=
  match e with
  | TimeoutExpired cmd t =>
      u "Command '" ++ repr_list w cmd ++ u "' timed out after "
        ++ str_of_nat t ++ u " seconds"
  | KeyError k => repr_str w k
  | ValueError m => m
  | OtherError _ m => m
  end.

(** ** The monad of handlers *)

Record State := { cwd : str; trace : list event }.

Inductive result (A : Type) :=
| Ok (a : A)
| Raise (e : exn).
Arguments Ok {A} a.
Arguments Raise {A} e.

Definition M (A : Type) : Type := State → result A * State.

Definition ret {A} (a : A) : M A := λ st, (Ok a, st).

Definition raise {A} (e : exn) : M A := λ st, (Raise e, st).

Definition bind {A B} (m : M A) (k : A → M B) : M B :=
  λ st, match m st with
        | (Ok a, st') => k a st'
        | (Raise e, st') => (Raise e, st')
        end.

Declare Scope py_scope.
Delimit Scope py_scope with py.
Notation "x ← y ; z" := (bind y (λ x, z))
  (at level 20, y at level 100, z at level 200, only parsing) : py_scope.
Notation "x ;; z" := (bind x (λ _, z))
  (at level 100, z at level 200, only parsing, right associativity) : py_scope.
Open Scope py_scope.

(** [try: body  except Exception as e: handler(e)] *)
Definition try_except {A} (body : M A) (handler : exn → M A) : M A :=
  λ st, match body st with
        | (Ok a, st') => (Ok a, st')
        | (Raise e, st') => handler e st'
        end.

(** [try: body  finally: fin]: [fin] runs on every exit of [body]; an
    exception of [fin] replaces the outcome of [body]. *)
Definition try_finally {A} (body : M A) (fin : M unit) : M A :=
  λ st, match body st with
        | (r, st') =>
            match fin st' with
            | (Ok _, st'') => (r, st'')
            | (Raise e, st'') => (Raise e, st'')
            end
        end.

Definition now (st : State) : nat := length (trace st).

Definition log (e : event) (st : State) : State :=
  {| cwd := cwd st; trace := trace st ++ [e] |}.

(** A call that may raise. *)
Definition call {A} (e : event) (answer : nat → exn + A) : M A :=
  λ st, match answer (now st) with
        | inr a => (Ok a, log e st)
        | inl x => (Raise x, log e st)
        end.

(** A call that completes or raises. *)
Definition call_unit (e : event) (answer : nat → option exn) : M unit :=
  call e (λ t, match answer t with None => inr tt | Some x => inl x end).

(** [args[key]] *)
Definition item (args : Args) (key : str) : M value :=
  match args !! key with
  | Some v => ret v
  | None => raise (KeyError key)
  end.

(** [args.get(key, default)] *)
Definition get (args : Args) (key : str) (default : value) : value :=
  match args !! key with
  | Some v => v
  | None => default
  end.

Section Primitives.
Context (w : World).

Definition os_path_exists (p : str) : M bool :=
    call (EExists p) (λ t, inr (path_exists w t p)).

Definition os_path_isfile (p : str) : M bool :=
    call (EIsFile p) (λ t, inr (path_isfile w t p)).

Definition os_path_isdir (p : str) : M bool :=
    call (EIsDir p) (λ t, inr (path_isdir w t p)).

Definition read_file (p : str) : M str :=
    call (ERead p) (λ t, read_text w t p).

Definition write_file (p content : str) : M unit :=
    call_unit (EWrite p content) (λ t, write_text w t p content).

Definition os_makedirs (p : str) : M unit :=
    call_unit (EMakedirs p) (λ t, makedirs w t p).

Definition os_getcwd : M str :=
    λ st, match getcwd_error w (now st) with
          | None => (Ok (cwd st), log EGetcwd st)
          | Some x => (Raise x, log EGetcwd st)
          end.

Definition os_chdir (d : str) : M unit :=
    λ st, match chdir_to w (now st) (cwd st) d with
          | inr c => (Ok tt, {| cwd := c; trace := trace st ++ [EChdir d] |})
          | inl x => (Raise x, log (EChdir d) st)
          end.

Definition subprocess_run (cmd : list str) (timeout : option nat)
      (dir : option str) : M CompletedProcess :=
    call (ERun cmd dir timeout) (λ t, run_process w t cmd dir timeout).

Definition glob_glob (pattern : str) : M (list str) :=
    call (EGlob pattern) (λ t, glob_paths w t pattern).

Definition os_walk_tree (top : str) : M dirtree :=
    call (EWalk top) (λ t, inr (walk_tree w t top)).

End Primitives.

(** [for x in l: s = body(x, s)] *)
Fixpoint for_each {A S} (l : list A) (body : A → S → M S) (s : S) : M S :=
  match l with
  | [] => ret s
  | x :: rest => s' ← body x s; for_each rest body s'
  end.

Definition text_content (t : str) : TextContent :=
  {| type := u "text"; text := t |}.

(** The arguments reach a handler validated against the input schema of its
    tool, so a parameter declared of type string holds a [str]; [as_str] is
    the identity on it. *)
Definition as_str (v : value) : str := fmt v.

(** [args[key]] for a parameter declared of type string *)
Definition item_str (args : Args) (key : str) : M str :=
  v ← item args key; ret (as_str v).

(** ** Tool descriptors *)

Record Property := {
  p_name : str;
  p_type : str;
  p_description : str;
  p_default : option value
}.

Record Tool := {
  name : str;
  description : str;
  properties : list Property;
  required : list str
}.

Definition prop (n d : str) : Property :=
  {| p_name := n; p_type := u "string"; p_description := d; p_default := None |}.

Definition prop_default (n d : str) (v : value) : Property :=
  {| p_name := n; p_type := u "string"; p_description := d; p_default := Some v |}.

Definition prop_bool (n d : str) (v : option value) : Property :=
  {| p_name := n; p_type := u "boolean"; p_description := d; p_default := v |}.

(** [re.sub(r'[^a-zA-Z0-9]', repl, s)]: the pattern has no flag, so its
    ranges are the ASCII letters and digits, and it matches one character at
    a time. *)
Definition is_alnum (c : N) : bool :=
  ((97 <=? c) && (c <=? 122) || (65 <=? c) && (c <=? 90)
   || (48 <=? c) && (c <=? 57))%N.

Fixpoint re_sub_not_alnum (repl s : str) : str :=
  match s with
  | [] => []
  | c :: s' => (if is_alnum c then [c] else repl) ++ re_sub_not_alnum repl s'
  end.

(** * The developer adapter: [mcp/claude-code-developer/server.py] *)

Module Developer.

Definition list_tools : list Tool := [
    {| name := u "generate_code";
       description := u "Generate code for a feature using Claude Code CLI";
       properties := [
         prop (u "feature") (u "Feature description");
         prop (u "language") (u "Programming language");
         prop (u "context") (u "Additional context (URL/file content)");
         prop_default (u "output_dir") (u "Output directory") (VStr (u "./"))];
       required := [u "feature"; u "language"] |};
    {| name := u "analyze_file";
       description := u "Analyze and improve existing code file";
       properties := [
         prop (u "file_path") (u "Path to file to analyze");
         prop (u "improvement_type") (u "Type of improvement needed")];
       required := [u "file_path"] |};
    {| name := u "create_feature_branch";
       description := u "Create a new feature branch for development";
       properties := [
         prop (u "feature_name") (u "Name of the feature");
         prop_default (u "base_branch") (u "Base branch") (VStr (u "main"))];
       required := [u "feature_name"] |};
    {| name := u "analyze_url_content";
       description := u "Fetch and analyze web content for code generation";
       properties := [
         prop (u "url") (u "Web URL to analyze");
         prop (u "language") (u "Target programming language")];
       required := [u "url"; u "language"] |};
    {| name := u "ask_claude";
       description := u "Ask Claude Code directly for development assistance";
       properties := [
         prop (u "prompt") (u "Prompt to send to Claude Code");
         prop_default (u "working_dir") (u "Working directory") (VStr (u "./"))];
       required := [u "prompt"] |}
  ].

Section Handlers.
Context (w : World).

Definition generate_code_handler (args : Args) : M (list TextContent) :=
      feature ← item args (u "feature");
      language ← item args (u "language");
      let context := get args (u "context") (VStr (u "")) in
      let output_dir := as_str (get args (u "output_dir") (VStr (u "./"))) in
      try_except
        (let prompt_parts := [
           u "I need to implement a feature in " ++ fmt language ++ u ":";
           u "Feature: " ++ fmt feature;
           u "Output directory: " ++ output_dir] in
         let prompt_parts :=
           if truthy context
           then prompt_parts ++ [u "Additional context: " ++ fmt context]
           else prompt_parts in
         let prompt_parts := prompt_parts ++ [
           u "";
           u "Please:";
           u "1. Create the necessary files for this feature";
           u "2. Write clean, well-documented code";
           u "3. Follow best practices for the language";
           u "4. Include proper error handling";
           u "5. Add comments explaining the implementation";
           u "";
           u "Generate the complete implementation ready for production use."] in
         let full_prompt := join (u "\n") prompt_parts in
         original_dir ← os_getcwd w;
         try_finally
           (there ← (if negb (str_eqb output_dir (u "./"))
                     then os_path_exists w output_dir else ret false);
            (if there then os_chdir w output_dir else ret tt);;
            there' ← os_path_exists w output_dir;
            result ← subprocess_run w [u "claude"; u "--print"; full_prompt]
                       (Some 180) (Some (if there' then output_dir else original_dir));
            if bool_decide (returncode result = 0%Z) then
              ret [text_content
                (u "✅ Code generation completed successfully!\n\nFeature: " ++ fmt feature
                 ++ u "\nLanguage: " ++ fmt language
                 ++ u "\nOutput Directory: " ++ output_dir
                 ++ u "\n\nClaude Code Response:\n" ++ stdout result)]
            else
              ret [text_content
                (u "❌ Code generation failed:\nError: " ++ stderr result
                 ++ u "\nOutput: " ++ stdout result)])
           (os_chdir w original_dir))
        (λ e, match e with
              | TimeoutExpired _ _ =>
                  ret [text_content (u "⏰ Code generation timed out")]
              | _ => ret [text_content (u "❌ Error: " ++ exn_str w e)]
              end).

Definition analyze_file_handler (args : Args) : M (list TextContent) :=
      file_path ← item_str args (u "file_path");
      let improvement_type := get args (u "improvement_type") (VStr (u "general")) in
      try_except
        (there ← os_path_exists w file_path;
         if negb there then
           ret [text_content (u "❌ File not found: " ++ file_path)]
         else
           file_content ← read_file w file_path;
           let prompt :=
             u "Please analyze this code file and provide " ++ fmt improvement_type ++ u " improvements:

File: " ++ file_path ++ u "

Code:
```
" ++ file_content ++ u "
```

Please provide:
1. Code quality assessment
2. Specific improvement suggestions
3. Best practices recommendations
4. Security considerations (if applicable)
5. Performance optimization opportunities
6. Refactored code examples where beneficial

Focus on " ++ fmt improvement_type ++ u " improvements." in
           result ← subprocess_run w [u "claude"; u "--print"; prompt] (Some 120) None;
           if bool_decide (returncode result = 0%Z) then
             ret [text_content
               (u "✅ File analysis completed!\n\nFile: " ++ file_path
                ++ u "\nImprovement Type: " ++ fmt improvement_type
                ++ u "\n\nAnalysis:\n" ++ stdout result)]
           else
             ret [text_content
               (u "❌ File analysis failed:\nError: " ++ stderr result)])
        (λ e, ret [text_content (u "❌ Error analyzing file: " ++ exn_str w e)]).

    (** The sanitized branch name of [create_feature_branch_handler]. *)
Definition branch_name (feature_name : str) : str :=
      u "feature/" ++ re_sub_not_alnum (u "-") (str_lower w feature_name).

Definition create_feature_branch_handler (args : Args) : M (list TextContent) :=
      feature_name ← item_str args (u "feature_name");
      let base_branch := as_str (get args (u "base_branch") (VStr (u "main"))) in
      try_except
        (let branch_name := branch_name feature_name in
         let commands := [
           [u "git"; u "checkout"; base_branch];
           [u "git"; u "pull"; u "origin"; base_branch];
           [u "git"; u "checkout"; u "-b"; branch_name]] in
         outputs ← for_each commands (λ cmd outputs,
           result ← subprocess_run w cmd None None;
           let outputs := outputs ++ [u "$ " ++ join (u " ") cmd ++ u "\n" ++ stdout result] in
           if negb (bool_decide (returncode result = 0%Z))
           then ret (outputs ++ [u "Warning: " ++ stderr result])
           else ret outputs) [];
         ret [text_content
           (u "✅ Feature branch '" ++ branch_name ++ u "' created successfully!\n\n"
            ++ join (u "\n") outputs)])
        (λ e, ret [text_content (u "❌ Error creating branch: " ++ exn_str w e)]).

Definition analyze_url_content_handler (args : Args) : M (list TextContent) :=
      url ← item args (u "url");
      language ← item args (u "language");
      try_except
        (let prompt :=
           u "Please analyze the content at this URL and help me implement integration code:

URL: " ++ fmt url ++ u "
Target Language: " ++ fmt language ++ u "

Please:
1. Fetch and analyze the content at the URL
2. Identify key information relevant for " ++ fmt language ++ u " integration
3. Suggest implementation approach
4. Provide code examples for integration
5. Include error handling and best practices
6. Consider security implications

Generate ready-to-use " ++ fmt language ++ u " code for working with this URL/API." in
         result ← subprocess_run w [u "claude"; u "--print"; prompt] (Some 120) None;
         if bool_decide (returncode result = 0%Z) then
           ret [text_content
             (u "✅ URL content analyzed!\n\nURL: " ++ fmt url
              ++ u "\nTarget Language: " ++ fmt language
              ++ u "\n\nAnalysis and Implementation:\n" ++ stdout result)]
         else
           ret [text_content
             (u "❌ Failed to analyze URL: " ++ fmt url
              ++ u "\nError: " ++ stderr result)])
        (λ e, ret [text_content (u "❌ Error analyzing URL: " ++ exn_str w e)]).

Definition ask_claude_handler (args : Args) : M (list TextContent) :=
      prompt ← item_str args (u "prompt");
      let working_dir := as_str (get args (u "working_dir") (VStr (u "./"))) in
      try_except
        (result ← subprocess_run w [u "claude"; u "--print"; prompt]
                    (Some 120) (Some working_dir);
         if bool_decide (returncode result = 0%Z) then
           ret [text_content (u "✅ Claude Code Response:\n\n" ++ stdout result)]
         else
           ret [text_content (u "❌ Claude Code Error:\n" ++ stderr result)])
        (λ e, match e with
              | TimeoutExpired _ _ =>
                  ret [text_content (u "⏰ Claude Code request timed out")]
              | _ => ret [text_content (u "❌ Error: " ++ exn_str w e)]
              end).

Definition call_tool (name : str) (arguments : Args) : M (list TextContent) :=
      if str_eqb name (u "generate_code") then generate_code_handler arguments
      else if str_eqb name (u "analyze_file") then analyze_file_handler arguments
      else if str_eqb name (u "create_feature_branch") then
        create_feature_branch_handler arguments
      else if str_eqb name (u "analyze_url_content") then
        analyze_url_content_handler arguments
      else if str_eqb name (u "ask_claude") then ask_claude_handler arguments
      else raise (ValueError (u "Unknown tool: " ++ name)).

End Handlers.

End Developer.

(** [os.walk(top)], top-down, consumed by a loop whose body prunes the
    sub-directories in place to those [keep] accepts ([dirs[:] = ...]): the
    triples [(root, dirs, files)] in the order they are yielded, [dirs] as the
    loop body leaves it. *)
Fixpoint os_walk (keep : str → bool) (top : str) (t : dirtree)
    : list (str * list str * list str) :=
  match t with
  | Unlistable => []
  | Dir subdirs files =>
      (top, filter (λ d, keep d = true) subdirs.*1, files) ::
      (fix below (l : list (str * dirtree)) :=
         match l with
         | [] => []
         | (d, sub) :: l' =>
             (if keep d then os_walk keep (path_join top d) sub else [])
             ++ below l'
         end) subdirs
  end.

(** * The QA adapter: [mcp/gemini-qa-agent/server.py] *)

Module QA.

Definition list_tools : list Tool := [
    {| name := u "review_code";
       description := u "Review code quality using Gemini CLI";
       properties := [
         prop (u "file_path") (u "Path to code file to review");
         prop (u "review_type")
              (u "Type of review (security, performance, style, etc.)")];
       required := [u "file_path"] |};
    {| name := u "generate_tests";
       description := u "Generate test cases for code using Gemini";
       properties := [
         prop (u "source_file") (u "Source code file to test");
         prop (u "test_framework") (u "Testing framework to use");
         prop (u "coverage_level")
              (u "Test coverage level (basic, comprehensive)")];
       required := [u "source_file"] |};
    {| name := u "security_audit";
       description := u "Perform security audit on code";
       properties := [
         prop (u "target_path") (u "File or directory path to audit");
         prop (u "audit_level") (u "Audit depth (quick, deep)")];
       required := [u "target_path"] |};
    {| name := u "performance_analysis";
       description := u "Analyze code performance and suggest optimizations";
       properties := [
         prop (u "file_path") (u "Code file to analyze");
         prop (u "language") (u "Programming language")];
       required := [u "file_path"; u "language"] |};
    {| name := u "code_quality_report";
       description := u "Generate comprehensive code quality report";
       properties := [
         prop (u "project_path") (u "Project directory path");
         prop_bool (u "include_metrics") (u "Include quality metrics") None];
       required := [u "project_path"] |};
    {| name := u "ask_gemini";
       description := u "Ask Gemini directly for QA assistance";
       properties := [
         prop (u "prompt") (u "Prompt to send to Gemini");
         prop_bool (u "include_all_files") (u "Include all files in context")
                   (Some (VBool false))];
       required := [u "prompt"] |}
  ].

  (** The four review templates of [review_code_handler], by review type. *)
Definition review_prompts (file_path code_content : str) : list (str * str) := [
    (u "security",
     u "Perform a comprehensive security review of this code. Look for:
- Security vulnerabilities and potential exploits
- Input validation issues
- Authentication and authorization flaws
- Data exposure risks
- Injection attack vectors
- Cryptographic issues
- Access control problems

File: " ++ file_path ++ u "

Code:
```
" ++ code_content ++ u "
```

Provide specific security recommendations and fixes.");
    (u "performance",
     u "Analyze this code for performance issues and optimization opportunities:
- Algorithmic complexity analysis
- Memory usage optimization
- I/O operation efficiency
- Database query optimization
- Caching opportunities
- Resource management
- Scalability concerns

File: " ++ file_path ++ u "

Code:
```
" ++ code_content ++ u "
```

Provide specific performance improvement recommendations.");
    (u "style",
     u "Review this code for style, readability, and best practices:
- Code organization and structure
- Naming conventions
- Documentation and comments
- Code duplication
- Design patterns usage
- Language-specific best practices
- Maintainability aspects

File: " ++ file_path ++ u "

Code:
```
" ++ code_content ++ u "
```

Provide specific style and best practice recommendations.");
    (u "general",
     u "Perform a comprehensive code review covering all aspects:
- Code quality and organization
- Security vulnerabilities
- Performance considerations
- Style and best practices
- Maintainability
- Testing considerations
- Documentation quality

File: " ++ file_path ++ u "

Code:
```
" ++ code_content ++ u "
```

Provide a thorough analysis with specific recommendations for improvement.")
  ].

  (** [prompts.get(key, default)] on a dict literal of strings *)
Fixpoint dict_get (prompts : list (str * str)) (key : value) (default : str) : str :=
    match prompts with
    | [] => default
    | (k, p) :: rest =>
        if bool_decide (key = VStr k) then p else dict_get rest key default
    end.

  (** The name under which [generate_tests_handler] saves the tests of
      [source_file]. *)
Definition test_file_name (source_file : str) : str :=
    let base_name := (splitext (basename source_file)).1 in
    let extension := (splitext source_file).2 in
    if str_in extension [u ".js"; u ".ts"; u ".jsx"; u ".tsx"] then
      base_name ++ u ".test" ++ extension
    else if str_eqb extension (u ".py") then
      u "test_" ++ base_name ++ u ".py"
    else if str_in extension [u ".java"] then
      base_name ++ u "Test.java"
    else
      base_name ++ u "_test" ++ extension.

Definition test_file_path (source_file : str) : str :=
    u "./tests/" ++ test_file_name source_file.

  (** The directory names the walk of [code_quality_report_handler] prunes. *)
Definition skipped_dirs : list str :=
    [u ".git"; u "node_modules"; u "__pycache__"; u ".venv"; u "venv";
     u "build"; u "dist"].

Definition keep_dir (d : str) : bool := negb (str_in d skipped_dirs).

  (** The body of the walk loop of [code_quality_report_handler] up to its
      test of [file_count], for one yielded [(root, dirs, files)]. *)
Definition walk_step (project_path root : str) (files : list str)
      (structure_info : list str) (file_count : nat) : list str * nat :=
    let level := count_char SEP (str_remove project_path root) in
    let indent := str_mul (u "  ") level in
    let structure_info := structure_info ++ [indent ++ basename root ++ u "/"] in
    let subindent := str_mul (u "  ") (level + 1) in
    foldl (λ '(structure_info, file_count) file,
             (structure_info ++ [subindent ++ file], file_count + 1))
          (structure_info, file_count) (take 10 files).

  (** The walk loop, over the triples [os.walk] yields; [break] ends it. *)
Fixpoint walk_loop (project_path : str) (walk : list (str * list str * list str))
      (structure_info : list str) (file_count : nat) : list str * nat :=
    match walk with
    | [] => (structure_info, file_count)
    | (root, _, files) :: rest =>
        let '(structure_info, file_count) :=
          walk_step project_path root files structure_info file_count in
        if bool_decide (100 < file_count) then
          let level := count_char SEP (str_remove project_path root) in
          let subindent := str_mul (u "  ") (level + 1) in
          (structure_info ++ [subindent ++ u "... (truncated)"], file_count)
        else walk_loop project_path rest structure_info file_count
    end.

Definition key_file_patterns : list str :=
    [u "**/package.json"; u "**/requirements.txt"; u "**/pom.xml";
     u "**/Cargo.toml"; u "**/go.mod"; u "**/*.md"].

Definition audit_patterns : list str :=
    [u "**/*.js"; u "**/*.py"; u "**/*.ts"; u "**/*.jsx"; u "**/*.tsx";
     u "**/*.java"; u "**/*.php"; u "**/*.rb"; u "**/*.go"].

Section Handlers.
Context (w : World).

Definition review_code_handler (args : Args) : M (list TextContent) :=
      file_path ← item_str args (u "file_path");
      let review_type := get args (u "review_type") (VStr (u "general")) in
      try_except
        (there ← os_path_exists w file_path;
         if negb there then
           ret [text_content (u "‚ùå File not found: " ++ file_path)]
         else
           code_content ← read_file w file_path;
           let prompts := review_prompts file_path code_content in
           let prompt :=
             dict_get prompts review_type
               (dict_get prompts (VStr (u "general")) []) in
           result ← subprocess_run w [u "gemini"; u "--prompt"; prompt] (Some 90) None;
           if bool_decide (returncode result = 0%Z) then
             ret [text_content
               (u "‚úÖ Code review completed!\n\nFile: " ++ file_path
                ++ u "\nReview Type: " ++ fmt review_type
                ++ u "\n\nGemini Analysis:\n" ++ stdout result)]
           else
             ret [text_content (u "‚ùå Code review failed: " ++ stderr result)])
        (λ e, ret [text_content (u "‚ùå Error during code review: " ++ exn_str w e)]).

Definition generate_tests_handler (args : Args) : M (list TextContent) :=
      source_file ← item_str args (u "source_file");
      let test_framework := get args (u "test_framework") (VStr (u "jest")) in
      let coverage_level := get args (u "coverage_level") (VStr (u "comprehensive")) in
      try_except
        (there ← os_path_exists w source_file;
         if negb there then
           ret [text_content (u "‚ùå Source file not found: " ++ source_file)]
         else
           source_code ← read_file w source_file;
           let prompt :=
             u "Generate " ++ fmt coverage_level ++ u " test cases for this code using "
               ++ fmt test_framework ++ u ".

Requirements:
- Create thorough unit tests
- Include edge cases and boundary conditions
- Test error scenarios and exception handling
- Include setup and teardown if needed
- Add descriptive test names and comments
- Ensure good test coverage
- Include integration tests where appropriate

Source File: " ++ source_file ++ u "
Testing Framework: " ++ fmt test_framework ++ u "
Coverage Level: " ++ fmt coverage_level ++ u "

Source Code:
```
" ++ source_code ++ u "
```

Generate complete, runnable test code with proper structure and organization." in
           result ← subprocess_run w [u "gemini"; u "--prompt"; prompt] (Some 120) None;
           if bool_decide (returncode result = 0%Z) then
             let test_file_path := test_file_path source_file in
             os_makedirs w (u "./tests");;
             try_except
               (write_file w test_file_path (stdout result);;
                ret [text_content
                  (u "‚úÖ Test cases generated and saved!\n\nSource: " ++ source_file
                   ++ u "\nTest File: " ++ test_file_path
                   ++ u "\nFramework: " ++ fmt test_framework
                   ++ u "\nCoverage: " ++ fmt coverage_level
                   ++ u "\n\nGenerated Tests:\n" ++ stdout result)])
               (λ e, ret [text_content
                  (u "‚úÖ Test cases generated!\n\nSource: " ++ source_file
                   ++ u "\nFramework: " ++ fmt test_framework
                   ++ u "\nCoverage: " ++ fmt coverage_level
                   ++ u "\n\nNote: Could not save to file (" ++ exn_str w e
                   ++ u "), but here are the tests:\n" ++ stdout result)])
           else
             ret [text_content (u "‚ùå Test generation failed: " ++ stderr result)])
        (λ e, ret [text_content (u "‚ùå Error generating tests: " ++ exn_str w e)]).

    (** One iteration of the audit loop of [security_audit_handler]. *)
Definition audit_file (file_path : str) (audit_results : list str) : M (list str) :=
      try_except
        (content ← read_file w file_path;
         let prompt :=
           u "Perform a comprehensive security audit of this code file.

Focus on identifying:
- SQL injection vulnerabilities
- Cross-site scripting (XSS) issues
- Authentication bypass possibilities
- Authorization flaws
- Input validation problems
- Data exposure risks
- Cryptographic weaknesses
- File system security issues
- Network security concerns
- Dependency vulnerabilities

File: " ++ file_path ++ u "

Code:
```
" ++ content ++ u "
```

Provide specific security findings with severity levels and remediation recommendations." in
         result ← subprocess_run w [u "gemini"; u "--prompt"; prompt] (Some 60) None;
         if bool_decide (returncode result = 0%Z) then
           ret (audit_results ++
                [u "üìÅ File: " ++ file_path ++ u "\n" ++ stdout result ++ u "\n"
                 ++ str_mul (u "=") 80])
         else
           ret (audit_results ++
                [u "‚ùå Failed to audit " ++ file_path ++ u ": " ++ stderr result]))
        (λ e, ret (audit_results ++
                   [u "‚ùå Error reading " ++ file_path ++ u ": " ++ exn_str w e])).

    (** [security_audit_handler] from the limit on the files to audit on. *)
Definition audit_files (target_path : str) (audit_level : value)
        (files_to_audit : list str) : M (list TextContent) :=
      let max_files := if bool_decide (audit_level = VStr (u "deep")) then 20 else 10 in
      let files_to_audit := take max_files files_to_audit in
      audit_results ← for_each files_to_audit audit_file [];
      ret [text_content
        (u "‚úÖ Security audit completed!\n\nTarget: " ++ target_path
         ++ u "\nAudited Files: " ++ str_of_nat (length audit_results)
         ++ u "\nAudit Level: " ++ fmt audit_level ++ u "\n\n"
         ++ join (u "\n\n") audit_results)].

Definition security_audit_handler (args : Args) : M (list TextContent) :=
      target_path ← item_str args (u "target_path");
      let audit_level := get args (u "audit_level") (VStr (u "quick")) in
      try_except
        (is_file ← os_path_isfile w target_path;
         if is_file then audit_files target_path audit_level [target_path]
         else
           is_dir ← os_path_isdir w target_path;
           if is_dir then
             files_to_audit ← for_each audit_patterns (λ pattern files_to_audit,
               found ← glob_glob w (path_join target_path pattern);
               ret (files_to_audit ++ found)) [];
             audit_files target_path audit_level files_to_audit
           else
             ret [text_content (u "‚ùå Path not found: " ++ target_path)])
        (λ e, ret [text_content (u "‚ùå Security audit error: " ++ exn_str w e)]).

Definition performance_analysis_handler (args : Args) : M (list TextContent) :=
      file_path ← item_str args (u "file_path");
      language ← item args (u "language");
      try_except
        (there ← os_path_exists w file_path;
         if negb there then
           ret [text_content (u "‚ùå File not found: " ++ file_path)]
         else
           code_content ← read_file w file_path;
           let prompt :=
             u "Analyze this " ++ fmt language ++ u " code for performance bottlenecks and optimization opportunities.

Performance Analysis Areas:
- Algorithmic complexity (Big O analysis)
- Memory usage and optimization
- I/O operations efficiency
- Database query optimization
- Caching opportunities
- Resource management
- Concurrent/parallel processing potential
- Language-specific optimizations
- Scalability considerations
- Profiling recommendations

File: " ++ file_path ++ u "
Language: " ++ fmt language ++ u "

Code:
```
" ++ code_content ++ u "
```

Provide specific performance improvement recommendations with before/after examples where applicable." in
           result ← subprocess_run w [u "gemini"; u "--prompt"; prompt] (Some 90) None;
           if bool_decide (returncode result = 0%Z) then
             ret [text_content
               (u "‚úÖ Performance analysis completed!\n\nFile: " ++ file_path
                ++ u "\nLanguage: " ++ fmt language
                ++ u "\n\nGemini Performance Analysis:\n" ++ stdout result)]
           else
             ret [text_content (u "‚ùå Performance analysis failed: " ++ stderr result)])
        (λ e, ret [text_content (u "‚ùå Performance analysis error: " ++ exn_str w e)]).

    (** The structure summary of [code_quality_report_handler]. *)
Definition structure_summary (project_path : str) (t : dirtree) : str :=
      let '(structure_info, file_count) :=
        walk_loop project_path (os_walk keep_dir project_path t) [] 0 in
      join (u "\n") (take 100 structure_info).

    (** One iteration of the loop over the key files. *)
Definition read_key_file (file_path : str) (config_content : str) : M str :=
      try_except
        (content ← read_file w file_path;
         let content := take 2000 content in
         ret (config_content ++ u "\n\n" ++ file_path ++ u ":\n" ++ content))
        (λ _, ret config_content).

Definition code_quality_report_handler (args : Args) : M (list TextContent) :=
      project_path ← item_str args (u "project_path");
      let include_metrics := get args (u "include_metrics") (VBool true) in
      try_except
        (there ← os_path_exists w project_path;
         if negb there then
           ret [text_content (u "‚ùå Project path not found: " ++ project_path)]
         else
           t ← os_walk_tree w project_path;
           let structure_summary := structure_summary project_path t in
           key_files ← for_each key_file_patterns (λ pattern key_files,
             found ← glob_glob w (path_join project_path pattern);
             ret (key_files ++ found)) [];
           config_content ← for_each (take 5 key_files) read_key_file (u "");
           let prompt :=
             u "Analyze this project and provide a comprehensive code quality report.

Project Path: " ++ project_path ++ u "
Include Metrics: " ++ fmt include_metrics ++ u "

Project Structure:
" ++ structure_summary ++ u "

Key Configuration Files:
" ++ config_content ++ u "

Please provide a comprehensive analysis covering:

1. **Architecture Assessment**
   - Project structure and organization
   - Design patterns usage
   - Separation of concerns
   - Modularity and maintainability

2. **Code Quality Metrics** (if include_metrics is True)
   - Estimated complexity
   - Maintainability index
   - Technical debt indicators
   - Documentation coverage

3. **Best Practices Compliance**
   - Language-specific conventions
   - Security practices
   - Performance considerations
   - Testing strategy

4. **Improvement Recommendations**
   - Priority issues to address
   - Refactoring opportunities
   - Infrastructure improvements
   - Development workflow enhancements

5. **Risk Assessment**
   - Security vulnerabilities
   - Performance bottlenecks
   - Maintenance challenges
   - Scalability concerns

Provide actionable recommendations with priority levels." in
           result ← subprocess_run w [u "gemini"; u "--prompt"; prompt] (Some 150) None;
           if bool_decide (returncode result = 0%Z) then
             ret [text_content
               (u "‚úÖ Code quality report generated!\n\nProject: " ++ project_path
                ++ u "\nMetrics Included: " ++ fmt include_metrics
                ++ u "\n\nGemini Quality Report:\n" ++ stdout result)]
           else
             ret [text_content
               (u "‚ùå Quality report generation failed: " ++ stderr result)])
        (λ e, ret [text_content (u "‚ùå Quality report error: " ++ exn_str w e)]).

Definition ask_gemini_handler (args : Args) : M (list TextContent) :=
      prompt ← item_str args (u "prompt");
      let include_all_files := get args (u "include_all_files") (VBool false) in
      try_except
        (let cmd := [u "gemini"; u "--prompt"; prompt] in
         let cmd := if truthy include_all_files then cmd ++ [u "--all_files"] else cmd in
         result ← subprocess_run w cmd (Some 120) None;
         if bool_decide (returncode result = 0%Z) then
           ret [text_content (u "‚úÖ Gemini Response:\n\n" ++ stdout result)]
         else
           ret [text_content (u "‚ùå Gemini Error:\n" ++ stderr result)])
        (λ e, match e with
              | TimeoutExpired _ _ =>
                  ret [text_content (u "‚è∞ Gemini request timed out")]
              | _ => ret [text_content (u "‚ùå Error: " ++ exn_str w e)]
              end).

Definition call_tool (name : str) (arguments : Args) : M (list TextContent) :=
      if str_eqb name (u "review_code") then review_code_handler arguments
      else if str_eqb name (u "generate_tests") then generate_tests_handler arguments
      else if str_eqb name (u "security_audit") then security_audit_handler arguments
      else if str_eqb name (u "performance_analysis") then
        performance_analysis_handler arguments
      else if str_eqb name (u "code_quality_report") then
        code_quality_report_handler arguments
      else if str_eqb name (u "ask_gemini") then ask_gemini_handler arguments
      else raise (ValueError (u "Unknown tool: " ++ name)).

End Handlers.

End QA.

(** * Envelopes and their status

    The status of an invocation result (success, failure, timeout) is carried
    by the mark that opens the text of the envelope. *)

Inductive status := Success | Failure | Timeout.

Record marks := { ok_mark : str; fail_mark : str; timeout_mark : str }.

Definition developer_marks : marks :=
  {| ok_mark := u "✅"; fail_mark := u "❌"; timeout_mark := u "⏰" |}.

Definition qa_marks : marks :=
  {| ok_mark := u "‚úÖ"; fail_mark := u "‚ùå"; timeout_mark := u "‚è∞" |}.

Definition status_of (mk : marks) (t : str) : option status :=
  if startswith t (ok_mark mk) then Some Success
  else if startswith t (fail_mark mk) then Some Failure
  else if startswith t (timeout_mark mk) then Some Timeout
  else None.

(** A response envelope: one text content whose text opens with a mark. *)
Definition is_envelope (mk : marks) (l : list TextContent) : Prop :=
  ∃ t s, l = [text_content t] ∧ status_of mk t = Some s.

(** The commands of the external processes launched along a trace. *)
Definition launched (tr : list event) : list (list str) :=
  omap (λ e, match e with ERun cmd _ _ => Some cmd | _ => None end) tr.

(** The files read along a trace. *)
Definition files_read (tr : list event) : list str :=
  omap (λ e, match e with ERead p => Some p | _ => None end) tr.

(** ** Specifications of computations *)

(** [m] returns, and what it returns satisfies [Q]. *)
Definition returns {A} (m : M A) (Q : A → Prop) : Prop :=
  ∀ st, ∃ a st', m st = (Ok a, st') ∧ Q a.

(** Whatever [m] returns satisfies [Q]. *)
Definition post {A} (m : M A) (Q : A → Prop) : Prop :=
  ∀ st, match m st with (Ok a, _) => Q a | (Raise _, _) => True end.

(** ** Example worlds *)

Definition ascii_lower (c : N) : N :=
  if ((65 <=? c) && (c <=? 90))%N then (c + 32)%N else c.

(** [str.lower] on ASCII text. *)
Definition lowers_ascii (w : World) : Prop :=
  ∀ s, Forall (λ c, (c < 128)%N) s → str_lower w s = ascii_lower <$> s.

(** A world over a fixed set of files, in which every launch of an external
    process is answered by [proc]. *)
Definition example_world (files : list (str * str))
    (proc : list str → option nat → exn + CompletedProcess) : World :=
  {| path_exists := λ _ p, bool_decide (p ∈ files.*1);
     path_isfile := λ _ p, bool_decide (p ∈ files.*1);
     path_isdir := λ _ _, false;
     read_text := λ _ p,
       match list_find (λ f, f.1 = p) files with
       | Some (_, f) => inr f.2
       | None => inl (OtherError (u "FileNotFoundError") (u "No such file or directory"))
       end;
     write_text := λ _ _ _, None;
     makedirs := λ _ _, None;
     getcwd_error := λ _, None;
     chdir_to := λ _ _ d, inr d;
     run_process := λ _ cmd _ tmo, proc cmd tmo;
     walk_tree := λ _ _, Unlistable;
     glob_paths := λ _ _, inr [];
     str_lower := fmap ascii_lower;
     repr_str := λ s, u "'" ++ s ++ u "'";
     repr_list := λ l, u "['" ++ join (u "', '") l ++ u "']" |}.

Definition completes (rc : Z) (out err : str)
    : list str → option nat → exn + CompletedProcess :=
  λ _ _, inr {| returncode := rc; stdout := out; stderr := err |}.

(** A process that outlives every configured wait. *)
Definition never_ends : list str → option nat → exn + CompletedProcess :=
  λ cmd tmo, match tmo with
             | Some t => inl (TimeoutExpired cmd t)
             | None => inr {| returncode := 0; stdout := []; stderr := [] |}
             end.

Definition cannot_launch : list str → option nat → exn + CompletedProcess :=
  λ _ _, inl (OtherError (u "FileNotFoundError") (u "[Errno 2] No such file or directory: 'git'")).

Definition start : State := {| cwd := u "/home/dev/project"; trace := [] |}.


(** The handler of each tool, by tool name. *)
Definition developer_handlers (w : World)
    : list (str * (Args → M (list TextContent))) :=
  [(u "generate_code", Developer.generate_code_handler w);
   (u "analyze_file", Developer.analyze_file_handler w);
   (u "create_feature_branch", Developer.create_feature_branch_handler w);
   (u "analyze_url_content", Developer.analyze_url_content_handler w);
   (u "ask_claude", Developer.ask_claude_handler w)].

Definition qa_handlers (w : World)
    : list (str * (Args → M (list TextContent))) :=
  [(u "review_code", QA.review_code_handler w);
   (u "generate_tests", QA.generate_tests_handler w);
   (u "security_audit", QA.security_audit_handler w);
   (u "performance_analysis", QA.performance_analysis_handler w);
   (u "code_quality_report", QA.code_quality_report_handler w);
   (u "ask_gemini", QA.ask_gemini_handler w)].

(** The outcome [out] of a handler started in [st] is a failure envelope
    whose text contains [p], reached without launching a process. *)
Definition reports_missing (mk : marks) (p : str) (st : State)
    (out : result (list TextContent) * State) : Prop :=
  ∃ t, out.1 = Ok [text_content t]
       ∧ status_of mk t = Some Failure
       ∧ contains t p
       ∧ launched (trace out.2) = launched (trace st).

(** The required arguments of [tool] are present in [args]. *)
Definition has_required (tool : Tool) (args : Args) : Prop :=
  ∀ k, k ∈ required tool → is_Some (args !! k).

(** Arguments naming a file that is not there. *)
Definition missing_args : Args :=
  <[u "file_path" := VStr (u "gone.py")]>
    (<[u "source_file" := VStr (u "gone.py")]>
       (<[u "project_path" := VStr (u "gone.py")]>
          (<[u "language" := VStr (u "python")]> ∅))).

(** The descriptor of analyze_file, the second tool of the developer adapter. *)
Definition analyze_file_tool : Tool :=
  {| name := u "analyze_file";
     description := u "Analyze and improve existing code file";
     properties := [
       prop (u "file_path") (u "Path to file to analyze");
       prop (u "improvement_type") (u "Type of improvement needed")];
     required := [u "file_path"] |}.

(** A request to generate code into the directory [out]. *)
Definition generate_args : Args :=
  <[u "feature" := VStr (u "login form")]>
    (<[u "language" := VStr (u "python")]>
       (<[u "output_dir" := VStr (u "out")]> ∅)).

(** A request to analyze the file [app.py]. *)
Definition analyze_args : Args := <[u "file_path" := VStr (u "app.py")]> ∅.

Definition app_py : list (str * str) := [(u "app.py", u "print(1)")].

(** The three version-control commands of create_feature_branch. *)
Definition git_commands (base_branch branch : str) : list (list str) :=
  [[u "git"; u "checkout"; base_branch];
   [u "git"; u "pull"; u "origin"; base_branch];
   [u "git"; u "checkout"; u "-b"; branch]].

(** What a completed command contributes to the aggregate: its echo and
    standard output, then a warning with its standard error if it failed. *)
Definition command_output (cmd : list str) (r : CompletedProcess) : list str :=
  [u "$ " ++ join (u " ") cmd ++ u "\n" ++ stdout r]
  ++ (if negb (bool_decide (returncode r = 0%Z))
      then [u "Warning: " ++ stderr r] else []).

Definition branch_args : Args := <[u "feature_name" := VStr (u "Add User Auth!")]> ∅.




Definition ask_args : Args := <[u "prompt" := VStr (u "Is this safe?")]> ∅.

(** A project with sources, a dependency directory and a large directory. *)
Definition sample_tree : dirtree :=
  Dir [(u "src", Dir [] [u "main.py"; u "util.py"]);
       (u "node_modules", Dir [(u "left-pad", Dir [] [u "index.js"])] []);
       (u "data", Dir [] (replicate 12 (u "row.csv")))]
      [u "README.md"].

(** Every external process exits with the status [rc] and standard error
    [err]. *)
Definition exits_with (w : World) (rc : Z) (err : str) : Prop :=
  ∀ t cmd dir tmo, ∃ out,
    run_process w t cmd dir tmo = inr {| returncode := rc; stdout := out; stderr := err |}.

(** A returned envelope is no success envelope. *)
Definition no_success_in (mk : marks) (l : list TextContent) : Prop :=
  ∀ t, l = [text_content t] → status_of mk t ≠ Some Success.

(** The number of files security_audit looks at, by audit level. *)
Definition audit_limit (audit_level : value) : nat :=
  if bool_decide (audit_level = VStr (u "deep")) then 20 else 10.

Definition audit_args : Args :=
  <[u "target_path" := VStr (u "app.py")]> (<[u "audit_level" := VStr (u "deep")]> ∅).

Definition tests_args : Args := <[u "source_file" := VStr (u "app.py")]> ∅.

(** The outcome [out] of a handler started in [st] is a failure envelope
    whose text ends with [msg], reached without launching a process. *)
Definition reports_error (mk : marks) (msg : str) (st : State)
    (out : result (list TextContent) * State) : Prop :=
  ∃ t, out.1 = Ok [text_content t]
       ∧ status_of mk t = Some Failure
       ∧ endswith t msg
       ∧ launched (trace out.2) = launched (trace st).

(** A world in which the file [app.py] is listed but cannot be opened. *)
Definition unreadable_world : World :=
  {| path_exists := λ _ _, true;
     path_isfile := λ _ _, true;
     path_isdir := λ _ _, false;
     read_text := λ _ _, inl (OtherError (u "PermissionError")
                                (u "[Errno 13] Permission denied: 'app.py'"));
     write_text := λ _ _ _, None;
     makedirs := λ _ _, None;
     getcwd_error := λ _, None;
     chdir_to := λ _ _ d, inr d;
     run_process := λ _ _ _ _, inr {| returncode := 0; stdout := []; stderr := [] |};
     walk_tree := λ _ _, Unlistable;
     glob_paths := λ _ _, inr [];
     str_lower := fmap ascii_lower;
     repr_str := λ s, s;
     repr_list := λ l, join (u ", ") l |}.

(** The line break, and the texts that hold none. *)
Definition NL : N := 10.



(** Twelve directories of twelve files each. *)
Definition wide_tree : dirtree :=
  Dir ((λ i, (u "d" ++ str_of_nat i, Dir [] (replicate 12 (u "row.csv")))) <$> seq 0 12)
      [].



(** A returned envelope is a failure envelope. *)
Definition is_failure (mk : marks) (l : list TextContent) : Prop :=
  ∃ t, l = [text_content t] ∧ status_of mk t = Some Failure.

(** [e] is not the expiry of a wait ([subprocess.TimeoutExpired]). *)
Definition not_timeout (e : exn) : Prop :=
  match e with TimeoutExpired _ _ => False | _ => True end.

(** No external process can be launched: [subprocess.run] raises, and not
    for an expired wait. *)
Definition launch_fails (w : World) : Prop :=
  ∀ t cmd dir tmo, ∃ e, run_process w t cmd dir tmo = inl e ∧ not_timeout e.

(** Only the wait for a process expires: [os.getcwd] and [os.chdir] raise no
    [TimeoutExpired]. *)
Definition only_waits_expire (w : World) : Prop :=
  (∀ t e, getcwd_error w t = Some e → not_timeout e)
  ∧ (∀ t c d e, chdir_to w t c d = inl e → not_timeout e).

(** The exceptions [m] raises satisfy [E]. *)
Definition raises_only {A} (m : M A) (E : exn → Prop) : Prop :=
  ∀ st, match m st with (Raise e, _) => E e | (Ok _, _) => True end.

(** The world [w] with every write of a file refused by [e]. *)
Definition read_only (w : World) (e : exn) : World :=
  {| path_exists := path_exists w;
     path_isfile := path_isfile w;
     path_isdir := path_isdir w;
     read_text := read_text w;
     write_text := λ _ _ _, Some e;
     makedirs := makedirs w;
     getcwd_error := getcwd_error w;
     chdir_to := chdir_to w;
     run_process := run_process w;
     walk_tree := walk_tree w;
     glob_paths := glob_paths w;
     str_lower := str_lower w;
     repr_str := repr_str w;
     repr_list := repr_list w |}.

(** [m] launches no external process. *)
Definition quiet {A} (m : M A) : Prop :=
  ∀ st, launched (trace (m st).2) = launched (trace st).

(** [m] launches at most one external process. *)
Definition launches_once {A} (m : M A) : Prop :=
  ∀ st, length (launched (trace (m st).2)) ≤ S (length (launched (trace st))).

(** A request for a review of [app.py] of a type the handler does not know. *)
Definition thorough_review_args : Args :=
  <[u "file_path" := VStr (u "app.py")]> (<[u "review_type" := VStr (u "thorough")]> ∅).

(** Literals are compared by evaluation, not by unfolding [utf8]. *)
#[global] Opaque utf8.

(** * Properties *)

(** ** The monad *)

Lemma bind_ret {A B} (a : A) (k : A → M B) : bind (ret a) k = k a.
Proof. reflexivity. Qed.

Lemma item_Some (args : Args) key v :
  args !! key = Some v → item args key = ret v.
Proof. intros H. unfold item. now rewrite H. Qed.

Lemma item_None (args : Args) key :
  args !! key = None → item args key = raise (KeyError key).
Proof. intros H. unfold item. now rewrite H. Qed.

Lemma item_str_Some (args : Args) key v :
  args !! key = Some v → item_str args key = ret (as_str v).
Proof. intros H. unfold item_str. now rewrite (item_Some _ _ _ H). Qed.

Lemma launched_app tr tr' : launched (tr ++ tr') = launched tr ++ launched tr'.
Proof. apply omap_app. Qed.

Lemma files_read_app tr tr' : files_read (tr ++ tr') = files_read tr ++ files_read tr'.
Proof. apply omap_app. Qed.

(** ** Text *)

Lemma startswith_app s p x : startswith s p = true → startswith (s ++ x) p = true.
Proof.
  revert s. induction p as [|c p IH]; intros [|d s]; simpl; try done.
  intros [-> H]%andb_true_iff. now rewrite (IH _ H).
Qed.

Lemma startswith_app_false s p x :
  length p ≤ length s → startswith s p = false → startswith (s ++ x) p = false.
Proof.
  revert s. induction p as [|c p IH]; intros [|d s]; simpl; try done; try lia.
  intros Hl [H|H]%andb_false_iff.
  - now rewrite H.
  - rewrite IH; [apply andb_false_r | lia | done].
Qed.

Lemma contains_app_r pre t : contains (pre ++ t) t.
Proof. exists pre, []. now rewrite app_nil_r. Qed.

Lemma contains_app_mid pre t post : contains (pre ++ t ++ post) t.
Proof. now exists pre, post. Qed.


Lemma contains_append a s t : contains s t → contains (s ++ a) t.
Proof.
  intros (pre & post & ->). exists pre, (post ++ a). now rewrite <- !app_assoc.
Qed.

Lemma endswith_prepend a s t : endswith s t → endswith (a ++ s) t.
Proof. intros (pre & ->). exists (a ++ pre). now rewrite <- app_assoc. Qed.

Lemma endswith_refl t : endswith t t.
Proof. now exists []. Qed.

Lemma endswith_contains s t : endswith s t → contains s t.
Proof. intros (pre & ->). apply contains_app_r. Qed.

(** The status of a text is decided by the literal that opens it: evaluate
    [status_of] on the literal. *)
Lemma status_of_app mk a x s :
  length (ok_mark mk) ≤ length a → length (fail_mark mk) ≤ length a →
  length (timeout_mark mk) ≤ length a →
  status_of mk a = Some s → status_of mk (a ++ x) = Some s.
Proof.
  unfold status_of. intros H1 H2 H3.
  destruct (startswith a (ok_mark mk)) eqn:E1.
  { intros <-. now rewrite startswith_app. }
  rewrite (startswith_app_false _ _ _ H1 E1).
  destruct (startswith a (fail_mark mk)) eqn:E2.
  { intros <-. now rewrite startswith_app. }
  rewrite (startswith_app_false _ _ _ H2 E2).
  destruct (startswith a (timeout_mark mk)) eqn:E3; [|easy].
  intros <-. now rewrite startswith_app.
Qed.

Ltac status_lit :=
  lazymatch goal with
  | |- status_of _ (_ ++ _) = Some _ =>
      apply status_of_app; [vm_compute; lia ..| vm_compute; reflexivity]
  | |- status_of _ _ = Some _ => vm_compute; reflexivity
  end.

(** ** The dispatcher *)

(** Comparisons of two literals are evaluated. *)
Ltac eval_lits :=
  repeat match goal with
  | |- context [str_eqb (utf8 ?a) (utf8 ?b)] =>
      let v := eval vm_compute in (str_eqb (utf8 a) (utf8 b)) in
      let E := fresh in
      assert (E : str_eqb (utf8 a) (utf8 b) = v) by (vm_compute; reflexivity);
      rewrite E; clear E
  end.

(** The [n]-th entry of a list literal is in it. *)
Tactic Notation "nth_entry" integer(n) := do n apply list_elem_of_further; apply list_elem_of_here.

Lemma str_eqb_false a b : a ≠ b → str_eqb a b = false.
Proof. intros H. unfold str_eqb. now apply bool_decide_eq_false_2. Qed.

Lemma developer_tool_names :
  name <$> Developer.list_tools
  = [u "generate_code"; u "analyze_file"; u "create_feature_branch";
     u "analyze_url_content"; u "ask_claude"].
Proof. reflexivity. Qed.

Lemma qa_tool_names :
  name <$> QA.list_tools
  = [u "review_code"; u "generate_tests"; u "security_audit";
     u "performance_analysis"; u "code_quality_report"; u "ask_gemini"].
Proof. reflexivity. Qed.

Lemma developer_unknown_tool w tool args st :
  tool ∉ name <$> Developer.list_tools →
  Developer.call_tool w tool args st
  = (Raise (ValueError (u "Unknown tool: " ++ tool)), st).
Proof.
  rewrite developer_tool_names, !not_elem_of_cons.
  intros (H1 & H2 & H3 & H4 & H5 & _). unfold Developer.call_tool.
  now rewrite (str_eqb_false _ _ H1), (str_eqb_false _ _ H2),
    (str_eqb_false _ _ H3), (str_eqb_false _ _ H4), (str_eqb_false _ _ H5).
Qed.

Lemma qa_unknown_tool w tool args st :
  tool ∉ name <$> QA.list_tools →
  QA.call_tool w tool args st
  = (Raise (ValueError (u "Unknown tool: " ++ tool)), st).
Proof.
  rewrite qa_tool_names, !not_elem_of_cons.
  intros (H1 & H2 & H3 & H4 & H5 & H6 & _). unfold QA.call_tool.
  now rewrite (str_eqb_false _ _ H1), (str_eqb_false _ _ H2),
    (str_eqb_false _ _ H3), (str_eqb_false _ _ H4), (str_eqb_false _ _ H5),
    (str_eqb_false _ _ H6).
Qed.

Lemma developer_known_tool w tool args :
  tool ∈ name <$> Developer.list_tools →
  ∃ h, (tool, h) ∈ developer_handlers w
       ∧ Developer.call_tool w tool args = h args.
Proof.
  rewrite developer_tool_names, !elem_of_cons, elem_of_nil.
  unfold developer_handlers.
  intros [->|[->|[->|[->|[->|[]]]]]];
    [exists (Developer.generate_code_handler w); split; [nth_entry 0|]
    |exists (Developer.analyze_file_handler w); split; [nth_entry 1|]
    |exists (Developer.create_feature_branch_handler w); split; [nth_entry 2|]
    |exists (Developer.analyze_url_content_handler w); split; [nth_entry 3|]
    |exists (Developer.ask_claude_handler w); split; [nth_entry 4|]];
    unfold Developer.call_tool; eval_lits; reflexivity.
Qed.

Lemma qa_known_tool w tool args :
  tool ∈ name <$> QA.list_tools →
  ∃ h, (tool, h) ∈ qa_handlers w ∧ QA.call_tool w tool args = h args.
Proof.
  rewrite qa_tool_names, !elem_of_cons, elem_of_nil.
  unfold qa_handlers.
  intros [->|[->|[->|[->|[->|[->|[]]]]]]];
    [exists (QA.review_code_handler w); split; [nth_entry 0|]
    |exists (QA.generate_tests_handler w); split; [nth_entry 1|]
    |exists (QA.security_audit_handler w); split; [nth_entry 2|]
    |exists (QA.performance_analysis_handler w); split; [nth_entry 3|]
    |exists (QA.code_quality_report_handler w); split; [nth_entry 4|]
    |exists (QA.ask_gemini_handler w); split; [nth_entry 5|]];
    unfold QA.call_tool; eval_lits; reflexivity.
Qed.

(** C5. A tool name outside the registry of an adapter makes its dispatcher
    raise the unknown-tool error, whose message ends with that name, without
    any call to the operating system (the state is unchanged, so no handler
    has run); a name in the registry is dispatched to the handler listed
    under that name, whose result is returned as it is. *)
Theorem call_tool_dispatch (w : World) (tool : str) (args : Args) :
  (tool ∉ name <$> Developer.list_tools →
     ∀ st, Developer.call_tool w tool args st
           = (Raise (ValueError (u "Unknown tool: " ++ tool)), st))
  ∧ (tool ∈ name <$> Developer.list_tools →
     ∃ h, (tool, h) ∈ developer_handlers w
          ∧ Developer.call_tool w tool args = h args)
  ∧ (tool ∉ name <$> QA.list_tools →
     ∀ st, QA.call_tool w tool args st
           = (Raise (ValueError (u "Unknown tool: " ++ tool)), st))
  ∧ (tool ∈ name <$> QA.list_tools →
     ∃ h, (tool, h) ∈ qa_handlers w ∧ QA.call_tool w tool args = h args)
  ∧ (developer_handlers w).*1 = name <$> Developer.list_tools
  ∧ (qa_handlers w).*1 = name <$> QA.list_tools.
Proof.
  split; [|split; [|split; [|split; [|split]]]].
  - intros H st. now apply developer_unknown_tool.
  - apply developer_known_tool.
  - intros H st. now apply qa_unknown_tool.
  - apply qa_known_tool.
  - reflexivity.
  - reflexivity.
Qed.

(** ** A missing file *)

Lemma launched_log_exists p st :
  launched (trace (log (EExists p) st)) = launched (trace st).
Proof. unfold log; simpl. rewrite launched_app. apply app_nil_r. Qed.

(** The five file-reading handlers open with the same test. *)
Lemma missing_reported mk lit p st :
  status_of mk lit = Some Failure →
  length (ok_mark mk) ≤ length lit → length (fail_mark mk) ≤ length lit →
  length (timeout_mark mk) ≤ length lit →
  reports_missing mk p st (Ok [text_content (lit ++ p)], log (EExists p) st).
Proof.
  intros Hs H1 H2 H3. exists (lit ++ p). split; [done|]. split.
  { now apply status_of_app. }
  split; [apply contains_app_r | apply launched_log_exists].
Qed.

Ltac missing :=
  apply missing_reported; [vm_compute; reflexivity | vm_compute; lia ..].

Lemma analyze_file_missing w args st p :
  args !! (u "file_path") = Some (VStr p) →
  path_exists w (now st) p = false →
  Developer.analyze_file_handler w args st
  = (Ok [text_content (u "❌ File not found: " ++ p)], log (EExists p) st).
Proof.
  intros Ha He. unfold Developer.analyze_file_handler.
  rewrite (item_str_Some _ _ _ Ha), bind_ret.
  unfold try_except, bind, os_path_exists, call. simpl. now rewrite He.
Qed.

Lemma review_code_missing w args st p :
  args !! (u "file_path") = Some (VStr p) →
  path_exists w (now st) p = false →
  QA.review_code_handler w args st
  = (Ok [text_content (u "‚ùå File not found: " ++ p)], log (EExists p) st).
Proof.
  intros Ha He. unfold QA.review_code_handler.
  rewrite (item_str_Some _ _ _ Ha), bind_ret.
  unfold try_except, bind, os_path_exists, call. simpl. now rewrite He.
Qed.

Lemma generate_tests_missing w args st p :
  args !! (u "source_file") = Some (VStr p) →
  path_exists w (now st) p = false →
  QA.generate_tests_handler w args st
  = (Ok [text_content (u "‚ùå Source file not found: " ++ p)], log (EExists p) st).
Proof.
  intros Ha He. unfold QA.generate_tests_handler.
  rewrite (item_str_Some _ _ _ Ha), bind_ret.
  unfold try_except, bind, os_path_exists, call. simpl. now rewrite He.
Qed.

Lemma performance_analysis_missing w args st p :
  args !! (u "file_path") = Some (VStr p) →
  is_Some (args !! (u "language")) →
  path_exists w (now st) p = false →
  QA.performance_analysis_handler w args st
  = (Ok [text_content (u "‚ùå File not found: " ++ p)], log (EExists p) st).
Proof.
  intros Ha [l Hl] He. unfold QA.performance_analysis_handler.
  rewrite (item_str_Some _ _ _ Ha), bind_ret, (item_Some _ _ _ Hl), bind_ret.
  unfold try_except, bind, os_path_exists, call. simpl. now rewrite He.
Qed.

Lemma code_quality_report_missing w args st p :
  args !! (u "project_path") = Some (VStr p) →
  path_exists w (now st) p = false →
  QA.code_quality_report_handler w args st
  = (Ok [text_content (u "‚ùå Project path not found: " ++ p)], log (EExists p) st).
Proof.
  intros Ha He. unfold QA.code_quality_report_handler.
  rewrite (item_str_Some _ _ _ Ha), bind_ret.
  unfold try_except, bind, os_path_exists, call. simpl. now rewrite He.
Qed.

(** C4. When the path given to a file-reading handler (analyze_file,
    review_code, generate_tests, performance_analysis, code_quality_report)
    does not exist, the handler returns (it does not raise) one failure
    envelope whose text contains the path, and the trace of the call launches
    no external process. *)
Theorem missing_file_is_reported (w : World) (st : State) (p : str) (args : Args) :
  path_exists w (now st) p = false →
  (args !! (u "file_path") = Some (VStr p) →
     reports_missing developer_marks p st (Developer.analyze_file_handler w args st))
  ∧ (args !! (u "file_path") = Some (VStr p) →
     reports_missing qa_marks p st (QA.review_code_handler w args st))
  ∧ (args !! (u "source_file") = Some (VStr p) →
     reports_missing qa_marks p st (QA.generate_tests_handler w args st))
  ∧ (args !! (u "file_path") = Some (VStr p) →
     is_Some (args !! (u "language")) →
     reports_missing qa_marks p st (QA.performance_analysis_handler w args st))
  ∧ (args !! (u "project_path") = Some (VStr p) →
     reports_missing qa_marks p st (QA.code_quality_report_handler w args st)).
Proof.
  intros He. split; [|split; [|split; [|split]]].
  - intros Ha. rewrite (analyze_file_missing _ _ _ _ Ha He). missing.
  - intros Ha. rewrite (review_code_missing _ _ _ _ Ha He). missing.
  - intros Ha. rewrite (generate_tests_missing _ _ _ _ Ha He). missing.
  - intros Ha Hl. rewrite (performance_analysis_missing _ _ _ _ Ha Hl He). missing.
  - intros Ha. rewrite (code_quality_report_missing _ _ _ _ Ha He). missing.
Qed.


Lemma missing_file_is_reported_witness :
  reports_missing developer_marks (u "gone.py") start
    (Developer.analyze_file_handler (example_world [] (completes 0 [] []))
       missing_args start)
  ∧ reports_missing qa_marks (u "gone.py") start
    (QA.code_quality_report_handler (example_world [] (completes 0 [] []))
       missing_args start).
Proof.
  pose proof (missing_file_is_reported (example_world [] (completes 0 [] []))
                start (u "gone.py") missing_args eq_refl) as (H1 & _ & _ & _ & H5).
  split; [apply H1 | apply H5]; vm_compute; reflexivity.
Defined.

(** ** Handlers always answer *)

Lemma returns_ret {A} (a : A) (Q : A → Prop) : Q a → returns (ret a) Q.
Proof. intros H st. now exists a, st. Qed.

Lemma post_ret {A} (a : A) (Q : A → Prop) : Q a → post (ret a) Q.
Proof. intros H st. exact H. Qed.

(** What a sequence returns is what its last part returns. *)
Lemma post_bind {A B} (m : M A) (k : A → M B) (Q : B → Prop) :
  (∀ a, post (k a) Q) → post (bind m k) Q.
Proof.
  intros H st. unfold bind. destruct (m st) as [[a|e] st']; [apply H | exact I].
Qed.

Lemma post_try_except {A} (body : M A) (h : exn → M A) (Q : A → Prop) :
  post body Q → (∀ e, post (h e) Q) → post (try_except body h) Q.
Proof.
  intros Hb Hh st. unfold try_except. specialize (Hb st).
  destruct (body st) as [[a|e] st']; [exact Hb | apply Hh].
Qed.

Lemma post_try_finally {A} (body : M A) (fin : M unit) (Q : A → Prop) :
  post body Q → post (try_finally body fin) Q.
Proof.
  intros Hb st. unfold try_finally. specialize (Hb st).
  destruct (body st) as [r st']. destruct (fin st') as [[[]|e] st'']; [|exact I].
  destruct r; [exact Hb | exact I].
Qed.

(** A [try] whose handlers all return does return. *)
Lemma returns_try_except {A} (body : M A) (h : exn → M A) (Q : A → Prop) :
  post body Q → (∀ e, returns (h e) Q) → returns (try_except body h) Q.
Proof.
  intros Hb Hh st. unfold try_except. specialize (Hb st).
  destruct (body st) as [[a|e] st']; [now exists a, st' | apply Hh].
Qed.

Lemma returns_item (args : Args) key {B} (k : value → M B) (Q : B → Prop) :
  is_Some (args !! key) → (∀ v, returns (k v) Q) → returns (bind (item args key) k) Q.
Proof. intros [v Hv] H. rewrite (item_Some _ _ _ Hv), bind_ret. apply H. Qed.

Lemma returns_item_str (args : Args) key {B} (k : str → M B) (Q : B → Prop) :
  is_Some (args !! key) → (∀ v, returns (k v) Q) → returns (bind (item_str args key) k) Q.
Proof. intros [v Hv] H. rewrite (item_str_Some _ _ _ Hv), bind_ret. apply H. Qed.

Ltac envelope :=
  eexists _, _; split; [reflexivity | status_lit].

Ltac post_step :=
  lazymatch goal with
  | |- post (bind _ _) _ => apply post_bind; intros ?
  | |- post (ret _) _ => apply post_ret; envelope
  | |- post (try_except _ _) _ => apply post_try_except; [|intros ?]
  | |- post (try_finally _ _) _ => apply post_try_finally
  | |- post (QA.audit_files _ _ _ _) _ => unfold QA.audit_files; cbv zeta
  | |- post (if ?b then _ else _) _ => destruct b
  | |- post (match ?e with _ => _ end) _ => destruct e
  end.

Ltac handler_returns :=
  cbv zeta; apply returns_try_except;
  [repeat post_step
  |let e := fresh "e" in intros e; try destruct e; apply returns_ret; envelope].

Lemma generate_code_returns w args :
  is_Some (args !! (u "feature")) → is_Some (args !! (u "language")) →
  returns (Developer.generate_code_handler w args) (is_envelope developer_marks).
Proof.
  intros Hf Hl. unfold Developer.generate_code_handler.
  apply returns_item; [done|intros feature].
  apply returns_item; [done|intros language]. handler_returns.
Qed.

Lemma analyze_file_returns w args :
  is_Some (args !! (u "file_path")) →
  returns (Developer.analyze_file_handler w args) (is_envelope developer_marks).
Proof.
  intros Hf. unfold Developer.analyze_file_handler.
  apply returns_item_str; [done|intros file_path]. handler_returns.
Qed.

Lemma create_feature_branch_returns w args :
  is_Some (args !! (u "feature_name")) →
  returns (Developer.create_feature_branch_handler w args) (is_envelope developer_marks).
Proof.
  intros Hf. unfold Developer.create_feature_branch_handler.
  apply returns_item_str; [done|intros feature_name]. handler_returns.
Qed.

Lemma analyze_url_content_returns w args :
  is_Some (args !! (u "url")) → is_Some (args !! (u "language")) →
  returns (Developer.analyze_url_content_handler w args) (is_envelope developer_marks).
Proof.
  intros Hf Hl. unfold Developer.analyze_url_content_handler.
  apply returns_item; [done|intros url].
  apply returns_item; [done|intros language]. handler_returns.
Qed.

Lemma ask_claude_returns w args :
  is_Some (args !! (u "prompt")) →
  returns (Developer.ask_claude_handler w args) (is_envelope developer_marks).
Proof.
  intros Hf. unfold Developer.ask_claude_handler.
  apply returns_item_str; [done|intros prompt]. handler_returns.
Qed.

Lemma review_code_returns w args :
  is_Some (args !! (u "file_path")) →
  returns (QA.review_code_handler w args) (is_envelope qa_marks).
Proof.
  intros Hf. unfold QA.review_code_handler.
  apply returns_item_str; [done|intros file_path]. handler_returns.
Qed.

Lemma generate_tests_returns w args :
  is_Some (args !! (u "source_file")) →
  returns (QA.generate_tests_handler w args) (is_envelope qa_marks).
Proof.
  intros Hf. unfold QA.generate_tests_handler.
  apply returns_item_str; [done|intros source_file]. handler_returns.
Qed.

Lemma security_audit_returns w args :
  is_Some (args !! (u "target_path")) →
  returns (QA.security_audit_handler w args) (is_envelope qa_marks).
Proof.
  intros Hf. unfold QA.security_audit_handler.
  apply returns_item_str; [done|intros target_path]. handler_returns.
Qed.

Lemma performance_analysis_returns w args :
  is_Some (args !! (u "file_path")) → is_Some (args !! (u "language")) →
  returns (QA.performance_analysis_handler w args) (is_envelope qa_marks).
Proof.
  intros Hf Hl. unfold QA.performance_analysis_handler.
  apply returns_item_str; [done|intros file_path].
  apply returns_item; [done|intros language]. handler_returns.
Qed.

Lemma code_quality_report_returns w args :
  is_Some (args !! (u "project_path")) →
  returns (QA.code_quality_report_handler w args) (is_envelope qa_marks).
Proof.
  intros Hf. unfold QA.code_quality_report_handler.
  apply returns_item_str; [done|intros project_path]. handler_returns.
Qed.

Lemma ask_gemini_returns w args :
  is_Some (args !! (u "prompt")) →
  returns (QA.ask_gemini_handler w args) (is_envelope qa_marks).
Proof.
  intros Hf. unfold QA.ask_gemini_handler.
  apply returns_item_str; [done|intros prompt]. handler_returns.
Qed.

Lemma required_present tool args k :
  has_required tool args → k ∈ required tool → is_Some (args !! k).
Proof. intros H. apply H. Qed.

Lemma returns_post {A} (m : M A) (Q P : A → Prop) :
  returns m Q → post m P → returns m P.
Proof.
  intros Hr Hp st. destruct (Hr st) as (a & st' & E & _).
  specialize (Hp st). rewrite E in Hp. now exists a, st'.
Qed.

(** *** When no process can be launched *)

Lemma post_raises {A B} (m : M A) (k : A → M B) (Q : B → Prop) :
  post m (λ _, False) → post (bind m k) Q.
Proof.
  intros H st. unfold bind. specialize (H st).
  destruct (m st) as [[a|e] st']; [destruct H | exact I].
Qed.

Lemma post_run_fails w cmd tmo dir {B} (k : CompletedProcess → M B) (Q : B → Prop) :
  launch_fails w → post (bind (subprocess_run w cmd tmo dir) k) Q.
Proof.
  intros H st. unfold bind, subprocess_run, call.
  destruct (H (now st) cmd dir tmo) as (e & -> & _). exact I.
Qed.

Lemma post_try_except_only {A} (E : exn → Prop) (body : M A) (h : exn → M A)
    (Q : A → Prop) :
  post body Q → raises_only body E → (∀ e, E e → post (h e) Q) →
  post (try_except body h) Q.
Proof.
  intros Hb He Hh st. unfold try_except. specialize (Hb st). specialize (He st).
  destruct (body st) as [[a|e] st']; [exact Hb | now apply Hh].
Qed.

Lemma raises_only_ret {A} (a : A) E : raises_only (ret a) E.
Proof. intros st. exact I. Qed.

Lemma raises_only_bind {A B} (m : M A) (k : A → M B) E :
  raises_only m E → (∀ a, raises_only (k a) E) → raises_only (bind m k) E.
Proof.
  intros Hm Hk st. unfold bind. specialize (Hm st).
  destruct (m st) as [[a|e] st']; [apply Hk | exact Hm].
Qed.

Lemma raises_only_try_finally {A} (body : M A) (fin : M unit) E :
  raises_only body E → raises_only fin E → raises_only (try_finally body fin) E.
Proof.
  intros Hb Hf st. unfold try_finally. specialize (Hb st).
  destruct (body st) as [r st']. specialize (Hf st').
  destruct (fin st') as [[[]|e] st'']; [|exact Hf]. now destruct r.
Qed.

Lemma raises_only_exists w p E : raises_only (os_path_exists w p) E.
Proof. intros st. exact I. Qed.

Lemma raises_only_getcwd w : only_waits_expire w → raises_only (os_getcwd w) not_timeout.
Proof.
  intros [H _] st. unfold os_getcwd.
  destruct (getcwd_error w (now st)) as [e|] eqn:E; [exact (H _ _ E) | exact I].
Qed.

Lemma raises_only_chdir w d : only_waits_expire w → raises_only (os_chdir w d) not_timeout.
Proof.
  intros [_ H] st. unfold os_chdir.
  destruct (chdir_to w (now st) (cwd st) d) as [e|c] eqn:E; [exact (H _ _ _ _ E) | exact I].
Qed.

Lemma raises_only_run w cmd tmo dir :
  launch_fails w → raises_only (subprocess_run w cmd tmo dir) not_timeout.
Proof.
  intros H st. unfold subprocess_run, call.
  now destruct (H (now st) cmd dir tmo) as (e & -> & He).
Qed.

Ltac failure_ret := apply post_ret; eexists; split; [reflexivity | status_lit].

Ltac failure_step Hf :=
  lazymatch goal with
  | |- post (bind (subprocess_run _ _ _ _) _) _ => apply post_run_fails; exact Hf
  | |- post (bind _ _) _ => apply post_bind; intros ?
  | |- post (ret _) _ => failure_ret
  | |- post (try_finally _ _) _ => apply post_try_finally
  | |- post (if ?b then _ else _) _ => destruct b
  | |- post (match ?e with _ => _ end) _ => destruct e
  end.

(** A handler with the one clause [except Exception]. *)
Ltac failure_handler Hf :=
  cbv zeta; apply post_try_except;
  [repeat failure_step Hf | let e := fresh "e" in intros e; failure_ret].

Ltac only_step Hf Hos :=
  lazymatch goal with
  | |- raises_only (bind _ _) _ => apply raises_only_bind; [|intros ?]
  | |- raises_only (ret _) _ => apply raises_only_ret
  | |- raises_only (try_finally _ _) _ => apply raises_only_try_finally
  | |- raises_only (os_getcwd _) _ => apply raises_only_getcwd; exact Hos
  | |- raises_only (os_chdir _ _) _ => apply raises_only_chdir; exact Hos
  | |- raises_only (os_path_exists _ _) _ => apply raises_only_exists
  | |- raises_only (subprocess_run _ _ _ _) _ => apply raises_only_run; exact Hf
  | |- raises_only (if ?b then _ else _) _ => destruct b
  end.

(** A handler with a clause for [TimeoutExpired] before [except Exception]. *)
Ltac failure_handler_only Hf Hos :=
  cbv zeta; apply (post_try_except_only not_timeout);
  [repeat failure_step Hf
  |repeat only_step Hf Hos
  |let e := fresh "e" in let He := fresh "He" in
   intros e He; destruct e; [destruct He | failure_ret ..]].

Section LaunchFails.
Context (w : World) (args : Args).
Hypothesis (Hf : launch_fails w).

Lemma generate_code_launch_fails :
  only_waits_expire w →
  post (Developer.generate_code_handler w args) (is_failure developer_marks).
Proof.
  intros Hos. unfold Developer.generate_code_handler.
  apply post_bind; intros feature. apply post_bind; intros language.
  failure_handler_only Hf Hos.
Qed.

Lemma analyze_file_launch_fails :
  post (Developer.analyze_file_handler w args) (is_failure developer_marks).
Proof.
  unfold Developer.analyze_file_handler. apply post_bind; intros file_path.
  failure_handler Hf.
Qed.

Lemma create_feature_branch_launch_fails :
  post (Developer.create_feature_branch_handler w args) (is_failure developer_marks).
Proof.
  unfold Developer.create_feature_branch_handler. apply post_bind; intros feature_name.
  cbv zeta. apply post_try_except; [|intros e; failure_ret].
  cbn [for_each]. apply post_raises, post_raises, post_run_fails, Hf.
Qed.

Lemma analyze_url_content_launch_fails :
  post (Developer.analyze_url_content_handler w args) (is_failure developer_marks).
Proof.
  unfold Developer.analyze_url_content_handler.
  apply post_bind; intros url. apply post_bind; intros language.
  failure_handler Hf.
Qed.

Lemma ask_claude_launch_fails :
  post (Developer.ask_claude_handler w args) (is_failure developer_marks).
Proof.
  unfold Developer.ask_claude_handler. apply post_bind; intros prompt.
  failure_handler_only Hf Hf.
Qed.

Lemma review_code_launch_fails :
  post (QA.review_code_handler w args) (is_failure qa_marks).
Proof.
  unfold QA.review_code_handler. apply post_bind; intros file_path.
  failure_handler Hf.
Qed.

Lemma generate_tests_launch_fails :
  post (QA.generate_tests_handler w args) (is_failure qa_marks).
Proof.
  unfold QA.generate_tests_handler. apply post_bind; intros source_file.
  failure_handler Hf.
Qed.

Lemma performance_analysis_launch_fails :
  post (QA.performance_analysis_handler w args) (is_failure qa_marks).
Proof.
  unfold QA.performance_analysis_handler.
  apply post_bind; intros file_path. apply post_bind; intros language.
  failure_handler Hf.
Qed.

Lemma code_quality_report_launch_fails :
  post (QA.code_quality_report_handler w args) (is_failure qa_marks).
Proof.
  unfold QA.code_quality_report_handler. apply post_bind; intros project_path.
  failure_handler Hf.
Qed.

Lemma ask_gemini_launch_fails :
  post (QA.ask_gemini_handler w args) (is_failure qa_marks).
Proof.
  unfold QA.ask_gemini_handler. apply post_bind; intros prompt.
  failure_handler_only Hf Hf.
Qed.

End LaunchFails.

(** *** Through the dispatcher *)

Lemma developer_handlers_answer (w : World) (tool : Tool) (args : Args) :
  has_required tool args → tool ∈ Developer.list_tools →
  returns (Developer.call_tool w (name tool) args) (is_envelope developer_marks).
Proof.
  intros Hreq. unfold Developer.list_tools. rewrite !elem_of_cons, elem_of_nil.
  intros [->|[->|[->|[->|[->|[]]]]]];
    cbn [name]; unfold Developer.call_tool; eval_lits; cbv iota.
  - apply generate_code_returns; apply (required_present _ _ _ Hreq);
      cbn [required]; [nth_entry 0 | nth_entry 1].
  - apply analyze_file_returns; apply (required_present _ _ _ Hreq);
      cbn [required]; nth_entry 0.
  - apply create_feature_branch_returns; apply (required_present _ _ _ Hreq);
      cbn [required]; nth_entry 0.
  - apply analyze_url_content_returns; apply (required_present _ _ _ Hreq);
      cbn [required]; [nth_entry 0 | nth_entry 1].
  - apply ask_claude_returns; apply (required_present _ _ _ Hreq);
      cbn [required]; nth_entry 0.
Qed.

Lemma qa_handlers_answer (w : World) (tool : Tool) (args : Args) :
  has_required tool args → tool ∈ QA.list_tools →
  returns (QA.call_tool w (name tool) args) (is_envelope qa_marks).
Proof.
  intros Hreq. unfold QA.list_tools. rewrite !elem_of_cons, elem_of_nil.
  intros [->|[->|[->|[->|[->|[->|[]]]]]]];
    cbn [name]; unfold QA.call_tool; eval_lits; cbv iota.
  - apply review_code_returns; apply (required_present _ _ _ Hreq);
      cbn [required]; nth_entry 0.
  - apply generate_tests_returns; apply (required_present _ _ _ Hreq);
      cbn [required]; nth_entry 0.
  - apply security_audit_returns; apply (required_present _ _ _ Hreq);
      cbn [required]; nth_entry 0.
  - apply performance_analysis_returns; apply (required_present _ _ _ Hreq);
      cbn [required]; [nth_entry 0 | nth_entry 1].
  - apply code_quality_report_returns; apply (required_present _ _ _ Hreq);
      cbn [required]; nth_entry 0.
  - apply ask_gemini_returns; apply (required_present _ _ _ Hreq);
      cbn [required]; nth_entry 0.
Qed.

Lemma post_raise {A} (e : exn) (Q : A → Prop) : post (raise e) Q.
Proof. intros st. exact I. Qed.

Lemma developer_launch_fails (w : World) (tool : str) (args : Args) :
  launch_fails w → (tool = u "generate_code" → only_waits_expire w) →
  post (Developer.call_tool w tool args) (is_failure developer_marks).
Proof.
  intros Hf Hos. unfold Developer.call_tool.
  destruct (str_eqb tool (u "generate_code")) eqn:E.
  { apply bool_decide_eq_true in E. now apply generate_code_launch_fails, Hos. }
  repeat match goal with |- context [str_eqb tool ?l] => destruct (str_eqb tool l) end.
  - now apply analyze_file_launch_fails.
  - now apply create_feature_branch_launch_fails.
  - now apply analyze_url_content_launch_fails.
  - now apply ask_claude_launch_fails.
  - apply post_raise.
Qed.

Lemma qa_launch_fails (w : World) (tool : str) (args : Args) :
  launch_fails w → tool ≠ u "security_audit" →
  post (QA.call_tool w tool args) (is_failure qa_marks).
Proof.
  intros Hf Hne. unfold QA.call_tool. rewrite (str_eqb_false _ _ Hne).
  repeat match goal with |- context [str_eqb tool ?l] => destruct (str_eqb tool l) end.
  - now apply review_code_launch_fails.
  - now apply generate_tests_launch_fails.
  - now apply performance_analysis_launch_fails.
  - now apply code_quality_report_launch_fails.
  - now apply ask_gemini_launch_fails.
  - apply post_raise.
Qed.

(** C7 (as the code has it). Called through the dispatcher with the required
    arguments of the tool present, every handler of both adapters returns:
    the outcome is never a raised exception, whatever the operating system
    and the external process answer (missing or unreadable files, failing
    launches, expired waits, any exit status), and it is one response
    envelope, whose text opens with the success, failure or timeout mark of
    the adapter. When no external process can be launched, it is a failure
    envelope for every tool other than security_audit (for generate_code:
    given that getcwd and chdir raise no TimeoutExpired). *)
Theorem handlers_always_answer (w : World) (tool : Tool) (args : Args) :
  has_required tool args →
  (tool ∈ Developer.list_tools →
     returns (Developer.call_tool w (name tool) args) (is_envelope developer_marks)
     ∧ (launch_fails w → (name tool = u "generate_code" → only_waits_expire w) →
        returns (Developer.call_tool w (name tool) args) (is_failure developer_marks)))
  ∧ (tool ∈ QA.list_tools →
     returns (QA.call_tool w (name tool) args) (is_envelope qa_marks)
     ∧ (launch_fails w → name tool ≠ u "security_audit" →
        returns (QA.call_tool w (name tool) args) (is_failure qa_marks))).
Proof.
  intros Hreq. split; intros Hin.
  - pose proof (developer_handlers_answer w tool args Hreq Hin) as H.
    split; [exact H|]. intros Hf Hos.
    exact (returns_post _ _ _ H (developer_launch_fails w (name tool) args Hf Hos)).
  - pose proof (qa_handlers_answer w tool args Hreq Hin) as H.
    split; [exact H|]. intros Hf Hne.
    exact (returns_post _ _ _ H (qa_launch_fails w (name tool) args Hf Hne)).
Qed.

Lemma handlers_always_answer_witness :
  returns (Developer.call_tool (example_world app_py cannot_launch)
             (u "analyze_file") analyze_args)
          (is_failure developer_marks).
Proof.
  assert (Hreq : has_required analyze_file_tool analyze_args).
  { intros k Hk. apply list_elem_of_singleton in Hk. subst k.
    vm_compute. eauto. }
  refine (proj2 (proj1 (handlers_always_answer (example_world app_py cannot_launch)
                          analyze_file_tool analyze_args Hreq) _) _ _).
  - unfold Developer.list_tools, analyze_file_tool. nth_entry 1.
  - intros t cmd dir tmo. eexists. split; [reflexivity | exact I].
  - intros H. vm_compute in H. discriminate H.
Defined.

(** C7 (as the specification has it) fails: not every fault gives a failure
    envelope. When the generated tests cannot be written to their file,
    generate_tests catches the exception of the write and returns a success
    envelope that notes it. *)
Lemma failed_save_is_a_success_envelope :
  tests_args !! (u "source_file") = Some (VStr (u "app.py"))
  ∧ (QA.call_tool
       (read_only (example_world app_py (completes 0 (u "assert 1") (u "")))
          (OtherError (u "PermissionError")
             (u "[Errno 13] Permission denied: './tests/test_app.py'")))
       (u "generate_tests") tests_args start).1
    = Ok [text_content (u "‚úÖ Test cases generated!\n\nSource: app.py\nFramework: jest\nCoverage: comprehensive\n\nNote: Could not save to file ([Errno 13] Permission denied: './tests/test_app.py'), but here are the tests:\nassert 1")]
  ∧ status_of qa_marks (u "‚úÖ Test cases generated!\n\nSource: app.py\nFramework: jest\nCoverage: comprehensive\n\nNote: Could not save to file ([Errno 13] Permission denied: './tests/test_app.py'), but here are the tests:\nassert 1")
    = Some Success.
Proof. repeat split; vm_compute; reflexivity. Qed.

(** ** The working directory *)

Lemma now_log e st : now (log e st) = S (now st).
Proof. unfold now, log; simpl. rewrite length_app; simpl. lia. Qed.

Lemma cwd_log e st : cwd (log e st) = cwd st.
Proof. reflexivity. Qed.


(** Handlers of a [try] that only build an envelope leave the state as the
    body left it. *)
Lemma try_except_state {A} (body : M A) (h : exn → M A) st :
  (∀ e st', (h e st').2 = st') →
  (try_except body h st).2 = (body st).2.
Proof.
  intros H. unfold try_except. destruct (body st) as [[a|e] st']; [done|apply H].
Qed.




(** ** An expired wait *)

(** C1 (failing case). analyze_file configures a wait of 120 seconds but has
    no clause for its expiry: when the wait expires, the handler answers
    through its generic [except Exception] clause, with the failure envelope
    it builds for any other exception, and not with a timeout envelope. *)
Theorem analyze_file_timeout_is_generic_failure (w : World) (args : Args)
    (st : State) (p content : str) :
  args !! (u "file_path") = Some (VStr p) →
  path_exists w (now st) p = true →
  read_text w (S (now st)) p = inr content →
  (∀ cmd, run_process w (S (S (now st))) cmd None (Some 120)
          = inl (TimeoutExpired cmd 120)) →
  ∃ cmd st',
    Developer.analyze_file_handler w args st
    = (Ok [text_content (u "❌ Error analyzing file: "
                         ++ exn_str w (TimeoutExpired cmd 120))], st')
    ∧ launched (trace st') = launched (trace st) ++ [cmd]
    ∧ status_of developer_marks
        (u "❌ Error analyzing file: " ++ exn_str w (TimeoutExpired cmd 120))
      = Some Failure.
Proof.
  intros Ha He Hr Ht. unfold Developer.analyze_file_handler.
  rewrite (item_str_Some _ _ _ Ha), bind_ret. cbv zeta.
  change (as_str (VStr p)) with p.
  unfold try_except, bind, os_path_exists, read_file, subprocess_run, call.
  rewrite He. cbn [negb]. rewrite now_log, Hr, !now_log, Ht.
  eexists _, _. split; [reflexivity|]. split; [|status_lit].
  cbn [trace log]. rewrite !launched_app. cbn. now rewrite !app_nil_r.
Qed.


Lemma analyze_file_timeout_is_generic_failure_witness :
  ∃ cmd st',
    Developer.analyze_file_handler (example_world app_py never_ends) analyze_args start
    = (Ok [text_content (u "❌ Error analyzing file: "
             ++ exn_str (example_world app_py never_ends) (TimeoutExpired cmd 120))], st')
    ∧ launched (trace st') = launched (trace start) ++ [cmd]
    ∧ status_of developer_marks
        (u "❌ Error analyzing file: "
           ++ exn_str (example_world app_py never_ends) (TimeoutExpired cmd 120))
      = Some Failure.
Proof.
  apply (analyze_file_timeout_is_generic_failure
           (example_world app_py never_ends) analyze_args start
           (u "app.py") (u "print(1)")).
  - vm_compute. reflexivity.
  - vm_compute. reflexivity.
  - vm_compute. reflexivity.
  - intros cmd. reflexivity.
Defined.

(** ** The branch name *)

Lemma re_sub_not_alnum_char (c : N) (s : str) :
  re_sub_not_alnum [c] s = (λ d, if is_alnum d then d else c) <$> s.
Proof.
  induction s as [|d s IH]; [done|]. cbn [re_sub_not_alnum fmap list_fmap].
  rewrite IH. now destruct (is_alnum d).
Qed.

Lemma hyphen_lit : u "-" = [45%N].
Proof. vm_compute. reflexivity. Qed.

Lemma is_alnum_hyphenated (c : N) :
  is_alnum (if is_alnum c then c else 45%N) = true
  ∨ (if is_alnum c then c else 45%N) = 45%N.
Proof. destruct (is_alnum c) eqn:E; [now left | now right]. Qed.

(** C2 (as the code has it). The branch name is the prefix [feature/]
    followed by the lowercased feature name in which every character other
    than an ASCII letter or digit is replaced by one hyphen, so its length is
    that of the lowercased name plus 8 and it holds only ASCII letters, digits
    and hyphens after the prefix; for [Add User Auth!] it is
    [feature/add-user-auth-], the hyphen of the final [!] included. *)
Theorem branch_name_sanitized (w : World) (feature_name : str) :
  Developer.branch_name w feature_name
  = u "feature/" ++ ((λ c, if is_alnum c then c else 45%N) <$> str_lower w feature_name)
  ∧ (∀ c, c ∈ drop 8 (Developer.branch_name w feature_name) →
          is_alnum c = true ∨ c = 45%N)
  ∧ (lowers_ascii w →
     Developer.branch_name w (u "Add User Auth!") = u "feature/add-user-auth-").
Proof.
  assert (E : ∀ s, Developer.branch_name w s
    = u "feature/" ++ ((λ c, if is_alnum c then c else 45%N) <$> str_lower w s)).
  { intros s. unfold Developer.branch_name.
    now rewrite hyphen_lit, re_sub_not_alnum_char. }
  split; [apply E|]. split.
  - intros c. rewrite E, drop_app_length'; [|vm_compute; reflexivity].
    intros (d & -> & _)%list_elem_of_fmap. apply is_alnum_hyphenated.
  - intros Hl. rewrite E, Hl.
    + vm_compute. reflexivity.
    + apply (bool_decide_unpack _). vm_compute. exact I.
Qed.

Lemma branch_name_sanitized_witness :
  Developer.branch_name (example_world [] (completes 0 [] [])) (u "Add User Auth!")
  = u "feature/add-user-auth-".
Proof.
  apply (branch_name_sanitized (example_world [] (completes 0 [] []))
           (u "Add User Auth!")).
  intros s _. reflexivity.
Defined.

(** C2 (as the specification has it) fails: the final [!] becomes a hyphen,
    so the branch name of [Add User Auth!] is not [feature/add-user-auth]. *)
Lemma branch_name_add_user_auth :
  Developer.branch_name (example_world [] (completes 0 [] [])) (u "Add User Auth!")
  ≠ u "feature/add-user-auth".
Proof. intros H. vm_compute in H. discriminate H. Qed.

(** ** Paths and the name of the test file *)

Lemma rfind1_notin (c : N) (s : str) : c ∉ s → rfind1 c s = 0.
Proof.
  induction s as [|d s IH]; [done|]. intros [Hd Hs]%not_elem_of_cons.
  cbn [rfind1]. rewrite (IH Hs).
  destruct (N.eqb_spec d c); [congruence | done].
Qed.

Lemma rfind1_last (c : N) (a b : str) :
  c ∉ b → rfind1 c (a ++ c :: b) = S (length a).
Proof.
  intros Hb. induction a as [|d a IH]; cbn [app rfind1 length].
  - now rewrite (rfind1_notin _ _ Hb), N.eqb_refl.
  - now rewrite IH.
Qed.

Lemma rfind1_le (c : N) (s : str) : rfind1 c s ≤ length s.
Proof.
  induction s as [|d s IH]; cbn [rfind1 length]; [lia|].
  destruct (rfind1 c s); [destruct (d =? c)%N|]; lia.
Qed.

(** A path is its directory part followed by its last component. *)
Lemma rfind1_sep_dir (dir name : str) :
  (dir = [] ∨ last dir = Some SEP) → SEP ∉ name →
  rfind1 SEP (dir ++ name) = length dir.
Proof.
  intros [->|Hl] Hn.
  - now apply rfind1_notin.
  - apply last_Some in Hl as [d ->]. rewrite <- app_assoc. cbn [app].
    rewrite (rfind1_last _ _ _ Hn), length_app. cbn. lia.
Qed.

Lemma basename_dir (dir name : str) :
  (dir = [] ∨ last dir = Some SEP) → SEP ∉ name →
  basename (dir ++ name) = name.
Proof.
  intros Hd Hn. unfold basename. rewrite (rfind1_sep_dir _ _ Hd Hn).
  now rewrite drop_app_length.
Qed.

Lemma forallb_dots_false (base : str) :
  (∃ c, c ∈ base ∧ c ≠ DOT) → forallb (λ c, (c =? DOT)%N) base = false.
Proof.
  intros (c & Hc & Hne). induction Hc as [c l|c d l Hc IH]; cbn [forallb].
  - destruct (N.eqb_spec c DOT); [congruence|done].
  - rewrite (IH Hne). apply andb_false_r.
Qed.

(** [splitext] cuts a path at the last dot of its last component. *)
Lemma splitext_dir (dir base e : str) :
  (dir = [] ∨ last dir = Some SEP) → SEP ∉ base → (∃ c, c ∈ base ∧ c ≠ DOT) →
  DOT ∉ e → SEP ∉ e →
  splitext (dir ++ base ++ DOT :: e) = (dir ++ base, DOT :: e).
Proof.
  intros Hd Hb Hc He Hs. unfold splitext.
  assert (Hn : SEP ∉ base ++ DOT :: e).
  { rewrite not_elem_of_app, not_elem_of_cons. repeat split; done. }
  rewrite (rfind1_sep_dir _ _ Hd Hn).
  replace (dir ++ base ++ DOT :: e) with ((dir ++ base) ++ DOT :: e)
    by now rewrite <- app_assoc.
  rewrite (rfind1_last _ _ _ He), length_app.
  rewrite bool_decide_eq_true_2 by lia.
  replace (S (length dir + length base) - 1 - length dir) with (length base) by lia.
  replace (S (length dir + length base) - 1) with (length (dir ++ base))
    by (rewrite length_app; lia).
  rewrite <- app_assoc at 1. rewrite drop_app_length.
  rewrite take_app_length, (forallb_dots_false _ Hc).
  now rewrite take_app_length, drop_app_length.
Qed.

Lemma test_file_name_dir (dir base e : str) :
  (dir = [] ∨ last dir = Some SEP) → SEP ∉ base → (∃ c, c ∈ base ∧ c ≠ DOT) →
  DOT ∉ e → SEP ∉ e →
  QA.test_file_name (dir ++ base ++ DOT :: e)
  = if str_in (DOT :: e) [u ".js"; u ".ts"; u ".jsx"; u ".tsx"] then
      base ++ u ".test" ++ DOT :: e
    else if str_eqb (DOT :: e) (u ".py") then u "test_" ++ base ++ u ".py"
    else if str_in (DOT :: e) [u ".java"] then base ++ u "Test.java"
    else base ++ u "_test" ++ DOT :: e.
Proof.
  intros Hd Hb Hc He Hs. unfold QA.test_file_name.
  assert (Hn : SEP ∉ base ++ DOT :: e).
  { rewrite not_elem_of_app, not_elem_of_cons. repeat split; done. }
  rewrite (basename_dir _ _ Hd Hn), (splitext_dir dir base e Hd Hb Hc He Hs).
  pose proof (splitext_dir [] base e (or_introl eq_refl) Hb Hc He Hs) as E.
  cbn [app] in E. now rewrite E.
Qed.

Lemma str_in_dot (e : str) (l l' : list str) :
  l' = cons DOT <$> l → str_in (DOT :: e) l' = str_in e l.
Proof.
  intros ->. apply bool_decide_ext. rewrite list_elem_of_fmap. split.
  - now intros (y & [= ->] & H).
  - intros H. now exists e.
Qed.

Lemma str_eqb_dot (e d d' : str) :
  d' = DOT :: d → str_eqb (DOT :: e) d' = str_eqb e d.
Proof. intros ->. apply bool_decide_ext. split; [now intros [= ->] | now intros ->]. Qed.

(** C6. For a source file whose last component is [base.e] (no dot and no
    slash in [e], and [base] not made of dots only), generate_tests saves the
    tests under [./tests/], as [base.test.e] when [e] is js, ts, jsx or tsx,
    as [test_base.py] when [e] is py, as [baseTest.java] when [e] is java, and
    as [base_test.e] for every other [e]; so [calc.py] gives [test_calc.py],
    [app.js] gives [app.test.js], [Main.java] gives [MainTest.java] and
    [lib.rb] gives [lib_test.rb]. *)
Theorem test_file_naming (dir base e : str) :
  (dir = [] ∨ last dir = Some SEP) → SEP ∉ base → (∃ c, c ∈ base ∧ c ≠ DOT) →
  DOT ∉ e → SEP ∉ e →
  (e ∈ [u "js"; u "ts"; u "jsx"; u "tsx"] →
     QA.test_file_path (dir ++ base ++ DOT :: e)
     = u "./tests/" ++ base ++ u ".test" ++ DOT :: e)
  ∧ (e = u "py" →
     QA.test_file_path (dir ++ base ++ DOT :: e)
     = u "./tests/" ++ u "test_" ++ base ++ u ".py")
  ∧ (e = u "java" →
     QA.test_file_path (dir ++ base ++ DOT :: e)
     = u "./tests/" ++ base ++ u "Test.java")
  ∧ (e ∉ [u "js"; u "ts"; u "jsx"; u "tsx"; u "py"; u "java"] →
     QA.test_file_path (dir ++ base ++ DOT :: e)
     = u "./tests/" ++ base ++ u "_test" ++ DOT :: e)
  ∧ QA.test_file_name (u "calc.py") = u "test_calc.py"
  ∧ QA.test_file_name (u "app.js") = u "app.test.js"
  ∧ QA.test_file_name (u "Main.java") = u "MainTest.java"
  ∧ QA.test_file_name (u "lib.rb") = u "lib_test.rb".
Proof.
  intros Hd Hb Hc He Hs. unfold QA.test_file_path.
  rewrite (test_file_name_dir dir base e Hd Hb Hc He Hs).
  rewrite (str_in_dot e [u "js"; u "ts"; u "jsx"; u "tsx"])
    by (vm_compute; reflexivity).
  rewrite (str_eqb_dot e (u "py")) by (vm_compute; reflexivity).
  rewrite (str_in_dot e [u "java"]) by (vm_compute; reflexivity).
  unfold str_in, str_eqb.
  split; [|split; [|split; [|split]]].
  - intros H. now rewrite bool_decide_eq_true_2.
  - intros ->. rewrite bool_decide_eq_false_2.
    + now rewrite bool_decide_eq_true_2.
    + intros H. rewrite !elem_of_cons, elem_of_nil in H.
      destruct H as [H|[H|[H|[H|[]]]]]; vm_compute in H; discriminate H.
  - intros ->. rewrite bool_decide_eq_false_2.
    + rewrite bool_decide_eq_false_2 by (intros H; vm_compute in H; discriminate H).
      rewrite bool_decide_eq_true_2 by apply list_elem_of_here.
      reflexivity.
    + intros H. rewrite !elem_of_cons, elem_of_nil in H.
      destruct H as [H|[H|[H|[H|[]]]]]; vm_compute in H; discriminate H.
  - rewrite !not_elem_of_cons. intros (H1 & H2 & H3 & H4 & H5 & H6 & _).
    rewrite bool_decide_eq_false_2
      by (rewrite !elem_of_cons, elem_of_nil; tauto).
    rewrite bool_decide_eq_false_2 by assumption.
    rewrite bool_decide_eq_false_2
      by (rewrite !elem_of_cons, elem_of_nil; tauto).
    done.
  - repeat split; vm_compute; reflexivity.
Qed.

Lemma test_file_naming_witness :
  QA.test_file_path (u "src/" ++ u "calc" ++ DOT :: u "py")
  = u "./tests/" ++ u "test_" ++ u "calc" ++ u ".py"
  ∧ QA.test_file_path (u "src/" ++ u "lib" ++ DOT :: u "rb")
    = u "./tests/" ++ u "lib" ++ u "_test" ++ DOT :: u "rb".
Proof.
  split.
  - apply (test_file_naming (u "src/") (u "calc") (u "py")).
    + right. vm_compute. reflexivity.
    + apply (bool_decide_unpack _). vm_compute. exact I.
    + exists 99%N. split; [|vm_compute; discriminate].
      apply (bool_decide_unpack _). vm_compute. exact I.
    + apply (bool_decide_unpack _). vm_compute. exact I.
    + apply (bool_decide_unpack _). vm_compute. exact I.
    + reflexivity.
  - apply (test_file_naming (u "src/") (u "lib") (u "rb")).
    + right. vm_compute. reflexivity.
    + apply (bool_decide_unpack _). vm_compute. exact I.
    + exists 108%N. split; [|vm_compute; discriminate].
      apply (bool_decide_unpack _). vm_compute. exact I.
    + apply (bool_decide_unpack _). vm_compute. exact I.
    + apply (bool_decide_unpack _). vm_compute. exact I.
    + apply (bool_decide_unpack _). vm_compute. exact I.
Defined.

(** ** The branch-creation sequence *)


(** One turn of the loop over the commands. *)
Lemma run_command_step w cmd r (outputs : list str) st :
  run_process w (now st) cmd None None = inr r →
  (bind (subprocess_run w cmd None None) (λ result,
     if negb (bool_decide (returncode result = 0%Z))
     then ret ((outputs ++ [u "$ " ++ join (u " ") cmd ++ u "\n" ++ stdout result])
               ++ [u "Warning: " ++ stderr result])
     else ret (outputs ++ [u "$ " ++ join (u " ") cmd ++ u "\n" ++ stdout result]))) st
  = (Ok (outputs ++ command_output cmd r), log (ERun cmd None None) st).
Proof.
  intros H. unfold bind, subprocess_run, call, command_output. rewrite H.
  destruct (negb (bool_decide (returncode r = 0%Z))); unfold ret.
  - now rewrite <- app_assoc.
  - now rewrite app_nil_r.
Qed.

(** C8 (as the code has it). When each of the three commands can be launched
    and completes, with whatever exit status, create_feature_branch runs
    exactly checkout of the base branch, pull of it and checkout of the new
    branch, in this order, and returns one envelope whose text is the header
    followed by the aggregate: for each command its echo and standard output,
    followed by a warning with its standard error when its exit status is
    not zero. *)
Theorem create_feature_branch_sequence (w : World) (args : Args) (st : State)
    (feature_name : str) (r1 r2 r3 : CompletedProcess) :
  let base_branch := as_str (get args (u "base_branch") (VStr (u "main"))) in
  let branch := Developer.branch_name w feature_name in
  let c1 := [u "git"; u "checkout"; base_branch] in
  let c2 := [u "git"; u "pull"; u "origin"; base_branch] in
  let c3 := [u "git"; u "checkout"; u "-b"; branch] in
  args !! (u "feature_name") = Some (VStr feature_name) →
  run_process w (now st) c1 None None = inr r1 →
  run_process w (S (now st)) c2 None None = inr r2 →
  run_process w (S (S (now st))) c3 None None = inr r3 →
  Developer.create_feature_branch_handler w args st
  = (Ok [text_content
           (u "✅ Feature branch '" ++ branch ++ u "' created successfully!\n\n"
            ++ join (u "\n") (command_output c1 r1 ++ command_output c2 r2
                              ++ command_output c3 r3))],
     {| cwd := cwd st;
        trace := trace st ++ [ERun c1 None None; ERun c2 None None;
                              ERun c3 None None] |}).
Proof.
  intros base_branch branch c1 c2 c3 Ha H1 H2 H3.
  unfold Developer.create_feature_branch_handler.
  rewrite (item_str_Some _ _ _ Ha), bind_ret. cbv zeta.
  change (as_str (VStr feature_name)) with feature_name.
  fold base_branch branch. fold c1 c2 c3.
  unfold try_except. unfold bind at 1. cbn [for_each].
  unfold bind at 1. rewrite (run_command_step w c1 r1 [] st H1). cbv beta iota.
  rewrite <- (now_log (ERun c1 None None) st) in H2.
  unfold bind at 1. rewrite (run_command_step w c2 r2 _ _ H2). cbv beta iota.
  rewrite <- (now_log (ERun c1 None None) st),
          <- (now_log (ERun c2 None None) (log (ERun c1 None None) st)) in H3.
  unfold bind at 1. rewrite (run_command_step w c3 r3 _ _ H3). cbv beta iota.
  unfold ret, log; cbn [cwd trace app].
  now rewrite <- !app_assoc.
Qed.

Lemma create_feature_branch_sequence_witness :
  launched (trace (Developer.create_feature_branch_handler
                     (example_world [] (completes 1 (u "") (u "fatal: not a git repository")))
                     branch_args start).2)
  = git_commands (u "main") (u "feature/add-user-auth-").
Proof.
  rewrite (create_feature_branch_sequence
             (example_world [] (completes 1 (u "") (u "fatal: not a git repository")))
             branch_args start (u "Add User Auth!")
             {| returncode := 1; stdout := u ""; stderr := u "fatal: not a git repository" |}
             {| returncode := 1; stdout := u ""; stderr := u "fatal: not a git repository" |}
             {| returncode := 1; stdout := u ""; stderr := u "fatal: not a git repository" |}).
  - vm_compute. reflexivity.
  - vm_compute. reflexivity.
  - reflexivity.
  - reflexivity.
  - reflexivity.
Defined.

(** C8 (as the specification has it) fails: when a command cannot be
    launched ([subprocess.run] raises), the sequence stops there, here after
    the first command, and the failure envelope is returned. *)
Lemma create_feature_branch_launch_failure :
  launched (trace (Developer.create_feature_branch_handler
                     (example_world [] cannot_launch) branch_args start).2)
  = [[u "git"; u "checkout"; u "main"]]
  ∧ (Developer.create_feature_branch_handler
       (example_world [] cannot_launch) branch_args start).1
    = Ok [text_content (u "❌ Error creating branch: [Errno 2] No such file or directory: 'git'")].
Proof. split; vm_compute; reflexivity. Qed.

(** ** What a success envelope carries *)


Lemma post_bind_with {A B} (P : A → Prop) (m : M A) (k : A → M B) (Q : B → Prop) :
  post m P → (∀ a, P a → post (k a) Q) → post (bind m k) Q.
Proof.
  intros Hm Hk st. unfold bind. specialize (Hm st).
  destruct (m st) as [[a|e] st']; [now apply Hk | exact I].
Qed.



Lemma join_snoc sep (l : list str) x : endswith (join sep (l ++ [x])) x.
Proof.
  induction l as [|y l IH]; [apply endswith_refl|].
  cbn [app join]. destruct (l ++ [x]) eqn:E.
  - destruct l; discriminate E.
  - do 2 apply endswith_prepend. exact IH.
Qed.


(** A text opened by a failure or timeout literal is no success envelope. *)
Ltac no_success Hs :=
  exfalso;
  lazymatch type of Hs with
  | status_of ?mk (?a ++ ?x) = _ =>
      first
        [ rewrite (status_of_app mk a x Failure) in Hs
            by (vm_compute; first [lia | reflexivity])
        | rewrite (status_of_app mk a x Timeout) in Hs
            by (vm_compute; first [lia | reflexivity]) ];
      discriminate Hs
  | status_of _ _ = _ => vm_compute in Hs; discriminate Hs
  end.




Lemma post_item (args : Args) key {B} (k : value → M B) (Q : B → Prop) :
  (∀ v, post (k v) Q) → post (bind (item args key) k) Q.
Proof. apply post_bind. Qed.












Lemma launched_log e st :
  launched (trace (log e st))
  = launched (trace st) ++ match e with ERun cmd _ _ => [cmd] | _ => [] end.
Proof. unfold log; cbn [trace]. rewrite launched_app. now destruct e. Qed.

Lemma files_read_log e st :
  files_read (trace (log e st))
  = files_read (trace st) ++ match e with ERead p => [p] | _ => [] end.
Proof. unfold log; cbn [trace]. rewrite files_read_app. now destruct e. Qed.



(** Collecting the files of a directory launches nothing. *)
Lemma glob_loop_launched w target patterns acc st :
  launched (trace (for_each patterns (λ pattern files,
      bind (glob_glob w (path_join target pattern)) (λ found, ret (files ++ found)))
    acc st).2) = launched (trace st).
Proof.
  revert acc st. induction patterns as [|p patterns IH]; intros acc st; [done|].
  cbn [for_each]. unfold bind at 1. unfold bind at 1, glob_glob, call.
  destruct (glob_paths w (now st) (path_join target p)) as [e|found]; cbn [ret].
  - cbn [snd]. now rewrite launched_log, app_nil_r.
  - rewrite IH. now rewrite launched_log, app_nil_r.
Qed.




Lemma post_at {A} (m : M A) (Q : A → Prop) st a st' :
  post m Q → m st = (Ok a, st') → Q a.
Proof. intros H E. specialize (H st). now rewrite E in H. Qed.




(** The report of security_audit on the one file [app.py]. *)
Lemma security_audit_of_one_file :
  (QA.call_tool (example_world app_py (completes 0 (u "OK") (u "")))
     (u "security_audit") audit_args start).1
  = Ok [text_content
          (u "‚úÖ Security audit completed!\n\nTarget: " ++ u "app.py\nAudited Files: 1\nAudit Level: deep\n\n"
           ++ u "üìÅ File: " ++ u "app.py\nOK\n" ++ str_mul (u "=") 80)].
Proof. vm_compute. reflexivity. Qed.

(** ** The walk of the quality report *)




Lemma foldl_listing (sub : str) (l : list str) (info : list str) (n : nat) :
  foldl (λ '(structure_info, file_count) file,
           (structure_info ++ [sub ++ file], file_count + 1)) (info, n) l
  = (info ++ ((λ file, sub ++ file) <$> l), n + length l).
Proof.
  revert info n. induction l as [|f l IH]; intros info n;
    cbn [foldl fmap list_fmap length].
  - now rewrite app_nil_r, Nat.add_0_r.
  - rewrite IH. f_equal; [now rewrite <- app_assoc | lia].
Qed.

(** One directory adds its own line and the lines of its first ten files. *)
Lemma walk_step_spec project_path root files info n :
  QA.walk_step project_path root files info n
  = (info
     ++ [str_mul (u "  ") (count_char SEP (str_remove project_path root))
         ++ basename root ++ u "/"]
     ++ ((λ file, str_mul (u "  ") (count_char SEP (str_remove project_path root) + 1)
                  ++ file) <$> take 10 files),
     n + length (take 10 files)).
Proof.
  unfold QA.walk_step. cbv zeta. rewrite foldl_listing. now rewrite <- app_assoc.
Qed.






(** *** The lines of the structure summary *)
















(** The walk on a sample project: node_modules is not visited, and the
    twelve files of data are listed as ten. *)
Lemma sample_walk :
  (os_walk QA.keep_dir (u "proj") sample_tree).*1.*1
  = [u "proj"; u "proj/src"; u "proj/data"]
  ∧ (QA.walk_loop (u "proj") (os_walk QA.keep_dir (u "proj") sample_tree) [] 0).2 = 13.
Proof. split; vm_compute; reflexivity. Qed.

(** The walk on twelve directories of twelve files stops in the eleventh,
    with 123 entries listed, of which the summary keeps a hundred lines. *)
Lemma wide_walk :
  length (QA.walk_loop (u "proj") (os_walk QA.keep_dir (u "proj") wide_tree) [] 0).1 = 123
  ∧ count_char NL (QA.structure_summary (u "proj") wide_tree) = 99.
Proof. split; vm_compute; reflexivity. Qed.

(** * Further properties of the handlers *)

(** ** Expired waits that are named *)

(** X1. ask_claude and ask_gemini answer an expired wait of their process
    with their timeout envelope, after the launch as only call. *)
Theorem ask_timeout_envelope (w : World) (args : Args) (st : State) (prompt : value) :
  args !! (u "prompt") = Some prompt →
  (∀ cmd dir, run_process w (now st) cmd dir (Some 120)
              = inl (TimeoutExpired cmd 120)) →
  (∃ cmd dir,
     Developer.ask_claude_handler w args st
     = (Ok [text_content (u "⏰ Claude Code request timed out")],
        log (ERun cmd dir (Some 120)) st))
  ∧ (∃ cmd dir,
     QA.ask_gemini_handler w args st
     = (Ok [text_content (u "‚è∞ Gemini request timed out")],
        log (ERun cmd dir (Some 120)) st))
  ∧ status_of developer_marks (u "⏰ Claude Code request timed out") = Some Timeout
  ∧ status_of qa_marks (u "‚è∞ Gemini request timed out") = Some Timeout.
Proof.
  intros Ha Ht.
  assert (H1 : ∃ cmd dir,
     Developer.ask_claude_handler w args st
     = (Ok [text_content (u "⏰ Claude Code request timed out")],
        log (ERun cmd dir (Some 120)) st)).
  { unfold Developer.ask_claude_handler.
    rewrite (item_str_Some _ _ _ Ha), bind_ret. cbv zeta.
    unfold try_except, bind, subprocess_run, call. rewrite Ht.
    eexists _, _. reflexivity. }
 
  split; [exact H1|]. clear H1. split.
  { unfold QA.ask_gemini_handler.
    rewrite (item_str_Some _ _ _ Ha), bind_ret. cbv zeta.
    unfold try_except, bind, subprocess_run, call. rewrite Ht.
    eexists _, _. reflexivity. }
 
  split; vm_compute; reflexivity.
Qed.

Lemma ask_timeout_envelope_witness :
  ∃ cmd dir,
    Developer.ask_claude_handler (example_world [] never_ends) ask_args start
    = (Ok [text_content (u "⏰ Claude Code request timed out")],
       log (ERun cmd dir (Some 120)) start).
Proof.
  refine (proj1 (ask_timeout_envelope (example_world [] never_ends) ask_args start
                   (VStr (u "Is this safe?")) _ _)).
  - vm_compute. reflexivity.
  - intros cmd dir. reflexivity.
Defined.

(** X2. generate_code answers an expired wait with its timeout envelope,
    whether or not it entered the output directory, when the working
    directory can be read and changed. *)
Theorem generate_code_timeout_envelope (w : World) (args : Args) (st : State) :
  is_Some (args !! (u "feature")) → is_Some (args !! (u "language")) →
  getcwd_error w (now st) = None →
  (∀ t c d, ∃ c', chdir_to w t c d = inr c') →
  (∀ t cmd dir, run_process w t cmd dir (Some 180) = inl (TimeoutExpired cmd 180)) →
  (Developer.generate_code_handler w args st).1
  = Ok [text_content (u "⏰ Code generation timed out")].
Proof.
  intros [f Hf] [l Hl] Hg Hc Ht. unfold Developer.generate_code_handler.
  rewrite (item_Some _ _ _ Hf), bind_ret, (item_Some _ _ _ Hl), bind_ret. cbv zeta.
  set (output_dir := as_str (get args (u "output_dir") (VStr (u "./")))).
  unfold try_except, bind at 1, os_getcwd. rewrite Hg.
  unfold try_finally.
  unfold bind at 1.
  destruct (negb (str_eqb output_dir (u "./"))).
  - unfold os_path_exists at 1, call at 1.
    destruct (path_exists w (now (log EGetcwd st)) output_dir).
    + unfold bind at 1, os_chdir at 1.
      match goal with |- context [chdir_to w ?t ?c ?d] =>
        destruct (Hc t c d) as [c' ->] end.
      unfold bind at 1, os_path_exists, call.
      unfold bind, subprocess_run, call. rewrite Ht.
      unfold os_chdir.
      match goal with |- context [chdir_to w ?t ?c ?d] =>
        destruct (Hc t c d) as [c'' ->] end.
      reflexivity.
    + unfold bind at 1, ret at 1.
      unfold bind at 1, os_path_exists, call.
      unfold bind, subprocess_run, call. rewrite Ht.
      unfold os_chdir.
      match goal with |- context [chdir_to w ?t ?c ?d] =>
        destruct (Hc t c d) as [c'' ->] end.
      reflexivity.
  - unfold ret at 1. unfold bind at 1, ret at 1.
    unfold bind at 1, os_path_exists, call.
    unfold bind, subprocess_run, call. rewrite Ht.
    unfold os_chdir.
    match goal with |- context [chdir_to w ?t ?c ?d] =>
      destruct (Hc t c d) as [c'' ->] end.
    reflexivity.
Qed.

Lemma generate_code_timeout_envelope_witness :
  (Developer.generate_code_handler
     (example_world [(u "out", u "")] never_ends) generate_args start).1
  = Ok [text_content (u "⏰ Code generation timed out")].
Proof.
  apply (generate_code_timeout_envelope
           (example_world [(u "out", u "")] never_ends) generate_args start).
  - vm_compute. eauto.
  - vm_compute. eauto.
  - reflexivity.
  - intros t c d. exists d. reflexivity.
  - intros t cmd dir. reflexivity.
Defined.

(** ** A process that fails *)


Lemma post_run_status w rc err cmd tmo dir :
  exits_with w rc err →
  post (subprocess_run w cmd tmo dir) (λ r, returncode r = rc).
Proof.
  intros H st. unfold subprocess_run, call.
  now destruct (H (now st) cmd dir tmo) as [out ->].
Qed.

Ltac unsuccessful_ret :=
  let t := fresh "t" in let Hs := fresh "Hs" in let E := fresh "E" in
  intros t E Hs; injection E as <-;
  first [ no_success Hs
        | exfalso;
          match goal with
          | H : bool_decide (returncode ?r = 0%Z) = true |- _ =>
              apply bool_decide_eq_true in H; congruence
          end ].

Ltac unsuccessful_step w rc err Hex :=
  lazymatch goal with
  | |- post (bind (subprocess_run _ _ _ _) _) _ =>
      let r := fresh "r" in let Hrc := fresh "Hrc" in
      apply (post_bind_with (λ r, returncode r = rc));
      [apply (post_run_status w rc err); exact Hex | intros r Hrc]
  | |- post (bind _ _) _ => apply post_bind; intros ?
  | |- post (ret _) _ => apply post_ret; unsuccessful_ret
  | |- post (try_except _ _) _ => apply post_try_except; [|intros ?]
  | |- post (try_finally _ _) _ => apply post_try_finally
  | |- post (if ?b then _ else _) _ => destruct b eqn:?
  | |- post (match ?e with _ => _ end) _ => destruct e
  end.

Ltac unsuccessful_handler w rc err Hex :=
  cbv zeta; apply post_try_except;
  [repeat unsuccessful_step w rc err Hex
  |let e := fresh "e" in intros e; try destruct e; apply post_ret; unsuccessful_ret].

Section Failing.
Context (w : World) (rc : Z) (err : str) (args : Args).
Hypothesis (Hrc : rc ≠ 0%Z) (Hex : exits_with w rc err).

Lemma generate_code_unsuccessful :
  post (Developer.generate_code_handler w args) (no_success_in developer_marks).
Proof.
  unfold Developer.generate_code_handler.
  apply post_bind; intros feature. apply post_bind; intros language.
  unsuccessful_handler w rc err Hex.
Qed.

Lemma analyze_file_unsuccessful :
  post (Developer.analyze_file_handler w args) (no_success_in developer_marks).
Proof.
  unfold Developer.analyze_file_handler. apply post_bind; intros file_path.
  unsuccessful_handler w rc err Hex.
Qed.

Lemma analyze_url_content_unsuccessful :
  post (Developer.analyze_url_content_handler w args) (no_success_in developer_marks).
Proof.
  unfold Developer.analyze_url_content_handler.
  apply post_bind; intros url. apply post_bind; intros language.
  unsuccessful_handler w rc err Hex.
Qed.

Lemma ask_claude_unsuccessful :
  post (Developer.ask_claude_handler w args) (no_success_in developer_marks).
Proof.
  unfold Developer.ask_claude_handler. apply post_bind; intros prompt.
  unsuccessful_handler w rc err Hex.
Qed.

Lemma review_code_unsuccessful :
  post (QA.review_code_handler w args) (no_success_in qa_marks).
Proof.
  unfold QA.review_code_handler. apply post_bind; intros file_path.
  unsuccessful_handler w rc err Hex.
Qed.

Lemma generate_tests_unsuccessful :
  post (QA.generate_tests_handler w args) (no_success_in qa_marks).
Proof.
  unfold QA.generate_tests_handler. apply post_bind; intros source_file.
  unsuccessful_handler w rc err Hex.
Qed.

Lemma performance_analysis_unsuccessful :
  post (QA.performance_analysis_handler w args) (no_success_in qa_marks).
Proof.
  unfold QA.performance_analysis_handler.
  apply post_bind; intros file_path. apply post_bind; intros language.
  unsuccessful_handler w rc err Hex.
Qed.

Lemma code_quality_report_unsuccessful :
  post (QA.code_quality_report_handler w args) (no_success_in qa_marks).
Proof.
  unfold QA.code_quality_report_handler. apply post_bind; intros project_path.
  unsuccessful_handler w rc err Hex.
Qed.

Lemma ask_gemini_unsuccessful :
  post (QA.ask_gemini_handler w args) (no_success_in qa_marks).
Proof.
  unfold QA.ask_gemini_handler. apply post_bind; intros prompt.
  unsuccessful_handler w rc err Hex.
Qed.

End Failing.

(** X3. When every external process exits with a non-zero status, no tool
    other than create_feature_branch and security_audit (which report the
    failure inside their success envelope) returns a success envelope. *)
Theorem failed_process_is_never_success (w : World) (rc : Z) (err tool : str)
    (args : Args) (st st' : State) (t : str) :
  rc ≠ 0%Z → exits_with w rc err →
  tool ≠ u "create_feature_branch" → tool ≠ u "security_audit" →
  (Developer.call_tool w tool args st = (Ok [text_content t], st') →
     status_of developer_marks t ≠ Some Success)
  ∧ (QA.call_tool w tool args st = (Ok [text_content t], st') →
     status_of qa_marks t ≠ Some Success).
Proof.
  intros Hrc Hex Hb Ha. split.
  - unfold Developer.call_tool.
    destruct (str_eqb tool (u "generate_code")).
    { intros E. exact (post_at _ _ _ _ _ (generate_code_unsuccessful w rc err args Hrc Hex) E t eq_refl). }
    destruct (str_eqb tool (u "analyze_file")).
    { intros E. exact (post_at _ _ _ _ _ (analyze_file_unsuccessful w rc err args Hrc Hex) E t eq_refl). }
    rewrite (str_eqb_false _ _ Hb).
    destruct (str_eqb tool (u "analyze_url_content")).
    { intros E. exact (post_at _ _ _ _ _ (analyze_url_content_unsuccessful w rc err args Hrc Hex) E t eq_refl). }
    destruct (str_eqb tool (u "ask_claude")).
    { intros E. exact (post_at _ _ _ _ _ (ask_claude_unsuccessful w rc err args Hrc Hex) E t eq_refl). }
    discriminate.
  - unfold QA.call_tool.
    destruct (str_eqb tool (u "review_code")).
    { intros E. exact (post_at _ _ _ _ _ (review_code_unsuccessful w rc err args Hrc Hex) E t eq_refl). }
    destruct (str_eqb tool (u "generate_tests")).
    { intros E. exact (post_at _ _ _ _ _ (generate_tests_unsuccessful w rc err args Hrc Hex) E t eq_refl). }
    rewrite (str_eqb_false _ _ Ha).
    destruct (str_eqb tool (u "performance_analysis")).
    { intros E. exact (post_at _ _ _ _ _ (performance_analysis_unsuccessful w rc err args Hrc Hex) E t eq_refl). }
    destruct (str_eqb tool (u "code_quality_report")).
    { intros E. exact (post_at _ _ _ _ _ (code_quality_report_unsuccessful w rc err args Hrc Hex) E t eq_refl). }
    destruct (str_eqb tool (u "ask_gemini")).
    { intros E. exact (post_at _ _ _ _ _ (ask_gemini_unsuccessful w rc err args Hrc Hex) E t eq_refl). }
    discriminate.
Qed.

Lemma failed_process_is_never_success_witness :
  status_of developer_marks (u "❌ Claude Code Error:\nrate limited") ≠ Some Success.
Proof.
  refine (proj1 (failed_process_is_never_success
            (example_world [] (completes 2 (u "") (u "rate limited"))) 2
            (u "rate limited") (u "ask_claude") ask_args start
            (Developer.call_tool (example_world [] (completes 2 (u "") (u "rate limited")))
               (u "ask_claude") ask_args start).2
            (u "❌ Claude Code Error:\nrate limited") _ _ _ _) _).
  - discriminate.
  - intros t cmd dir tmo. exists (u ""). reflexivity.
  - intros H. vm_compute in H. discriminate H.
  - intros H. vm_compute in H. discriminate H.
  - vm_compute. reflexivity.
Defined.

(** ** The security audit *)

(** One audited file adds exactly one entry to the report and launches at
    most one process, whatever happens to the file and to the process. *)
Lemma audit_file_one_entry w file acc st :
  ∃ entry st', QA.audit_file w file acc st = (Ok (acc ++ [entry]), st')
    ∧ length (launched (trace st')) ≤ S (length (launched (trace st)))
    ∧ files_read (trace st') = files_read (trace st) ++ [file].
Proof.
  unfold QA.audit_file, try_except, bind, read_file, subprocess_run, call.
  destruct (read_text w (now st) file) as [e|content].
  - eexists _, _. split; [reflexivity|].
    rewrite launched_log, files_read_log, app_nil_r. split; [lia | done].
  - cbv zeta.
    match goal with |- context [run_process w ?t ?cmd ?dir ?tmo] =>
      destruct (run_process w t cmd dir tmo) as [e|r] end.
    + eexists _, _. split; [reflexivity|].
      rewrite !launched_log, !files_read_log, !length_app, !app_nil_r.
      cbn [length]. split; [lia | done].
    + destruct (bool_decide (returncode r = 0%Z));
        (eexists _, _; split; [reflexivity|]);
        rewrite !launched_log, !files_read_log, !length_app, !app_nil_r;
        cbn [length]; (split; [lia | done]).
Qed.

Lemma audit_loop_entries w files acc st :
  ∃ results st', for_each files (QA.audit_file w) acc st = (Ok results, st')
    ∧ length results = length acc + length files
    ∧ length (launched (trace st')) ≤ length (launched (trace st)) + length files
    ∧ files_read (trace st') = files_read (trace st) ++ files.
Proof.
  revert acc st. induction files as [|f files IH]; intros acc st.
  - exists acc, st. rewrite app_nil_r. cbn. repeat split; lia.
  - cbn [for_each]. unfold bind.
    destruct (audit_file_one_entry w f acc st) as (entry & st1 & -> & Hl1 & Hr1).
    destruct (IH (acc ++ [entry]) st1) as (results & st2 & -> & Hn & Hl2 & Hr2).
    exists results, st2. split; [reflexivity|].
    rewrite Hn, Hr2, Hr1, length_app, <- app_assoc. cbn [length app].
    repeat split; lia.
Qed.


(** The report of the audit over the files found. *)
Lemma security_audit_is_capped_aux (w : World) (target_path : str)
    (audit_level : value) (files : list str) (st : State) :
  ∃ results st',
    QA.audit_files w target_path audit_level files st
    = (Ok [text_content
             (u "‚úÖ Security audit completed!\n\nTarget: " ++ target_path
              ++ u "\nAudited Files: " ++ str_of_nat (length results)
              ++ u "\nAudit Level: " ++ fmt audit_level ++ u "\n\n"
              ++ join (u "\n\n") results)], st')
    ∧ length results = length files `min` audit_limit audit_level
    ∧ files_read (trace st') = files_read (trace st) ++ take (audit_limit audit_level) files
    ∧ length (launched (trace st'))
      ≤ length (launched (trace st)) + audit_limit audit_level.
Proof.
  unfold QA.audit_files. cbv zeta. fold (audit_limit audit_level). unfold bind.
  destruct (audit_loop_entries w (take (audit_limit audit_level) files) [] st)
    as (results & st' & -> & Hn & Hl & Hr).
  exists results, st'. split; [reflexivity|].
  rewrite length_take in Hn, Hl. cbn [length] in Hn.
  repeat split; [lia | exact Hr | lia].
Qed.


(** X5. Whatever its arguments and whatever the file system holds,
    security_audit launches at most 10 processes, or 20 when the audit level
    is deep. *)
Theorem security_audit_launch_bound (w : World) (args : Args) (st : State) :
  length (launched (trace (QA.security_audit_handler w args st).2))
  ≤ length (launched (trace st))
    + audit_limit (get args (u "audit_level") (VStr (u "quick"))).
Proof.
  unfold QA.security_audit_handler.
  destruct (args !! (u "target_path")) as [v|] eqn:Ha;
    [rewrite (item_str_Some _ _ _ Ha), bind_ret
    |unfold item_str; rewrite (item_None _ _ Ha); cbn; lia].
  cbv zeta. rewrite try_except_state by reflexivity.
  unfold bind at 1, os_path_isfile, call.
  destruct (path_isfile w (now st) (as_str v)).
  - destruct (security_audit_is_capped_aux w (as_str v)
                (get args (u "audit_level") (VStr (u "quick"))) [as_str v]
                (log (EIsFile (as_str v)) st)) as (res & st1 & -> & _ & _ & Hl).
    cbn [snd]. rewrite launched_log, app_nil_r in Hl. exact Hl.
  - unfold bind at 1, os_path_isdir, call.
    destruct (path_isdir w (now (log (EIsFile (as_str v)) st)) (as_str v)).
    + unfold bind at 1.
      match goal with |- context [for_each QA.audit_patterns ?body ?acc ?s] =>
        pose proof (glob_loop_launched w (as_str v) QA.audit_patterns acc s) as Hg;
        destruct (for_each QA.audit_patterns body acc s) as [[files|e] st1] end;
        cbn [snd] in Hg; rewrite !launched_log, !app_nil_r in Hg.
      * destruct (security_audit_is_capped_aux w (as_str v)
                    (get args (u "audit_level") (VStr (u "quick"))) files st1)
          as (res & st2 & -> & _ & _ & Hl).
        cbn [snd]. rewrite Hg in Hl. exact Hl.
      * cbn [snd]. rewrite Hg. lia.
    + cbn [ret snd]. rewrite !launched_log, !app_nil_r. lia.
Qed.

(** X6. A target path that is neither a file nor a directory is reported:
    security_audit returns a failure envelope whose text contains the path,
    after the two tests of the path and without launching a process. *)
Theorem security_audit_path_not_found (w : World) (args : Args) (st : State) (p : str) :
  args !! (u "target_path") = Some (VStr p) →
  path_isfile w (now st) p = false →
  path_isdir w (S (now st)) p = false →
  QA.security_audit_handler w args st
  = (Ok [text_content (u "‚ùå Path not found: " ++ p)],
     log (EIsDir p) (log (EIsFile p) st))
  ∧ reports_missing qa_marks p st (QA.security_audit_handler w args st).
Proof.
  intros Ha Hf Hd.
  assert (E : QA.security_audit_handler w args st
    = (Ok [text_content (u "‚ùå Path not found: " ++ p)],
       log (EIsDir p) (log (EIsFile p) st))).
  { unfold QA.security_audit_handler.
    rewrite (item_str_Some _ _ _ Ha), bind_ret. cbv zeta.
    change (as_str (VStr p)) with p.
    unfold try_except, bind, os_path_isfile, os_path_isdir, call.
    now rewrite Hf, now_log, Hd. }
  split; [exact E|]. rewrite E. exists (u "‚ùå Path not found: " ++ p).
  split; [reflexivity|]. split; [status_lit|]. split; [apply contains_app_r|].
  cbn [snd]. now rewrite !launched_log, !app_nil_r.
Qed.

Lemma security_audit_path_not_found_witness :
  reports_missing qa_marks (u "gone.py") start
    (QA.security_audit_handler (example_world [] (completes 0 [] []))
       (<[u "target_path" := VStr (u "gone.py")]> ∅) start).
Proof.
  refine (proj2 (security_audit_path_not_found (example_world [] (completes 0 [] []))
            (<[u "target_path" := VStr (u "gone.py")]> ∅) start (u "gone.py") _ _ _)).
  - vm_compute. reflexivity.
  - reflexivity.
  - reflexivity.
Defined.

(** ** Saving the generated tests *)




(** ** Where the test file goes *)

Lemma notin_drop_rfind1 (c : N) (s : str) : c ∉ drop (rfind1 c s) s.
Proof.
  induction s as [|d s IH]; [apply not_elem_of_nil|]. cbn [rfind1].
  destruct (rfind1 c s) as [|k] eqn:E.
  - destruct (N.eqb_spec d c) as [->|Hne]; [exact IH|].
    cbn [drop] in *. now apply not_elem_of_cons.
  - exact IH.
Qed.

Lemma basename_no_sep (p : str) : SEP ∉ basename p.
Proof. apply notin_drop_rfind1. Qed.

(** The two parts of [splitext] make up the path, and the extension holds
    no separator. *)
Lemma splitext_parts (p : str) :
  (splitext p).1 ++ (splitext p).2 = p ∧ (SEP ∉ (splitext p).2)
  ∧ ((splitext p).1 ⊆ p).
Proof.
  unfold splitext. cbv zeta. case_bool_decide as Hlt.
  - destruct (forallb _ _); cbn [fst snd].
    + rewrite app_nil_r. split; [done|]. split; [apply not_elem_of_nil|done].
    + split; [apply take_drop|]. split; [|apply subseteq_take].
      replace (rfind1 DOT p - 1) with (rfind1 SEP p + (rfind1 DOT p - 1 - rfind1 SEP p))
        by lia.
      rewrite <- drop_drop. intros H. apply subseteq_drop in H.
      now apply notin_drop_rfind1 in H.
  - cbn [fst snd]. rewrite app_nil_r. split; [done|].
    split; [apply not_elem_of_nil|done].
Qed.

Lemma lit_no_sep (s : str) : bool_decide (SEP ∉ s) = true → SEP ∉ s.
Proof. apply bool_decide_eq_true. Qed.

Lemma test_file_name_no_sep (source_file : str) : SEP ∉ QA.test_file_name source_file.
Proof.
  unfold QA.test_file_name. cbv zeta.
  pose proof (proj1 (proj2 (splitext_parts source_file))) as Hext.
  assert (Hbase : SEP ∉ (splitext (basename source_file)).1).
  { intros H. apply (proj2 (proj2 (splitext_parts (basename source_file)))) in H.
    now apply basename_no_sep in H. }
  assert (L1 : SEP ∉ u ".test") by (apply lit_no_sep; vm_compute; reflexivity).
  assert (L2 : SEP ∉ u "test_") by (apply lit_no_sep; vm_compute; reflexivity).
  assert (L3 : SEP ∉ u ".py") by (apply lit_no_sep; vm_compute; reflexivity).
  assert (L4 : SEP ∉ u "Test.java") by (apply lit_no_sep; vm_compute; reflexivity).
  assert (L5 : SEP ∉ u "_test") by (apply lit_no_sep; vm_compute; reflexivity).
  destruct (str_in _ _); [|destruct (str_eqb _ _); [|destruct (str_in _ _)]];
    rewrite !not_elem_of_app; tauto.
Qed.

(** X8. Whatever the path of the source file, the name generate_tests gives
    to the test file holds no path separator, so the file is written
    directly inside [./tests] (the directory part of the source path is not
    carried over and cannot lead elsewhere): the last component of the path
    written is that name. *)
Theorem test_file_stays_in_tests (source_file : str) :
  (SEP ∉ QA.test_file_name source_file)
  ∧ basename (QA.test_file_path source_file) = QA.test_file_name source_file
  ∧ QA.test_file_path source_file = u "./tests/" ++ basename (QA.test_file_path source_file).
Proof.
  pose proof (test_file_name_no_sep source_file) as H.
  assert (E : basename (QA.test_file_path source_file) = QA.test_file_name source_file).
  { unfold QA.test_file_path. apply basename_dir; [|exact H].
    right. vm_compute. reflexivity. }
  split; [exact H|]. split; [exact E|]. now rewrite E.
Qed.

(** ** A missing required argument *)






(** ** A file that cannot be read *)


Lemma error_reported mk lit msg st st' :
  status_of mk lit = Some Failure →
  length (ok_mark mk) ≤ length lit → length (fail_mark mk) ≤ length lit →
  length (timeout_mark mk) ≤ length lit →
  launched (trace st') = launched (trace st) →
  reports_error mk msg st (Ok [text_content (lit ++ msg)], st').
Proof.
  intros Hs H1 H2 H3 Hl. exists (lit ++ msg). split; [done|]. split.
  { now apply status_of_app. }
  split; [apply endswith_prepend, endswith_refl | exact Hl].
Qed.

Ltac read_failed Ha He Hr :=
  first [rewrite (item_str_Some _ _ _ Ha), bind_ret | idtac];
  cbv zeta;
  match type of Ha with _ = Some (VStr ?p) => change (as_str (VStr p)) with p end;
  unfold try_except, bind, os_path_exists, read_file, call;
  rewrite He; cbn [negb]; rewrite now_log, Hr;
  apply error_reported;
  [vm_compute; reflexivity | vm_compute; lia | vm_compute; lia | vm_compute; lia
  | now rewrite !launched_log, !app_nil_r].

(** X10. When the file given to analyze_file, review_code, generate_tests
    or performance_analysis exists but reading it raises (no permission, not
    UTF-8, a directory), the handler returns its failure envelope, whose text
    ends with the message of the exception, and launches no process. *)
Theorem unreadable_file_is_reported (w : World) (args : Args) (st : State)
    (p : str) (e : exn) :
  path_exists w (now st) p = true →
  read_text w (S (now st)) p = inl e →
  (args !! (u "file_path") = Some (VStr p) →
     reports_error developer_marks (exn_str w e) st
       (Developer.analyze_file_handler w args st))
  ∧ (args !! (u "file_path") = Some (VStr p) →
     reports_error qa_marks (exn_str w e) st (QA.review_code_handler w args st))
  ∧ (args !! (u "source_file") = Some (VStr p) →
     reports_error qa_marks (exn_str w e) st (QA.generate_tests_handler w args st))
  ∧ (args !! (u "file_path") = Some (VStr p) →
     is_Some (args !! (u "language")) →
     reports_error qa_marks (exn_str w e) st
       (QA.performance_analysis_handler w args st)).
Proof.
  intros He Hr. split; [|split; [|split]].
  - intros Ha. unfold Developer.analyze_file_handler. read_failed Ha He Hr.
  - intros Ha. unfold QA.review_code_handler. read_failed Ha He Hr.
  - intros Ha. unfold QA.generate_tests_handler. read_failed Ha He Hr.
  - intros Ha [l Hl]. unfold QA.performance_analysis_handler.
    rewrite (item_str_Some _ _ _ Ha), bind_ret.
    first [rewrite (item_Some _ _ _ Hl), bind_ret
          | rewrite (item_str_Some _ _ _ Hl), bind_ret].
    read_failed Ha He Hr.
Qed.

Lemma unreadable_file_is_reported_witness :
  reports_error developer_marks (u "[Errno 13] Permission denied: 'app.py'") start
    (Developer.analyze_file_handler unreadable_world analyze_args start).
Proof.
  refine (proj1 (unreadable_file_is_reported unreadable_world analyze_args start
                   (u "app.py")
                   (OtherError (u "PermissionError")
                      (u "[Errno 13] Permission denied: 'app.py'")) _ _) _).
  - reflexivity.
  - reflexivity.
  - vm_compute. reflexivity.
Defined.

(** ** The mark of truncation *)

(** The listing is longer than the count of files, and a walk that stops
    early ends its listing with the mark. *)
Lemma walk_loop_mark project_path walk info0 n0 info n :
  n0 ≤ length info0 → n0 ≤ 100 →
  QA.walk_loop project_path walk info0 n0 = (info, n) → 100 < n →
  ∃ listed mark,
    info = listed ++ [mark]
    ∧ endswith mark (u "... (truncated)")
    ∧ 100 < length listed.
Proof.
  revert info0 n0. induction walk as [|[[root dirs] files] walk IH]; intros info0 n0 H0 H100.
  - cbn [QA.walk_loop]. intros [= <- <-]. lia.
  - cbn [QA.walk_loop]. rewrite walk_step_spec. case_bool_decide as Hn.
    + intros [= <- <-] _. eexists _, _. split; [reflexivity|].
      split; [apply endswith_prepend, endswith_refl|].
      rewrite ?length_app; cbn [length]; rewrite ?length_app, ?length_fmap; cbn [length]; lia.
    + apply IH; [|lia]. rewrite ?length_app; cbn [length]; rewrite ?length_app, ?length_fmap; cbn [length]; lia.
Qed.

(** X11. When the walk of code_quality_report stops early (more than 100
    files counted), the line [... (truncated)] it appends comes after more
    than 100 entries of the listing, so the cut of the listing to its first
    100 entries always drops it: the summary sent in the prompt is the same
    as without the mark. *)
Theorem truncation_mark_is_cut (project_path : str) (t : dirtree)
    (info : list str) (n : nat) :
  QA.walk_loop project_path (os_walk QA.keep_dir project_path t) [] 0 = (info, n) →
  100 < n →
  ∃ listed mark,
    info = listed ++ [mark]
    ∧ endswith mark (u "... (truncated)")
    ∧ 100 < length listed
    ∧ QA.structure_summary project_path t = join (u "\n") (take 100 listed).
Proof.
  intros H Hn.
  destruct (walk_loop_mark _ _ [] 0 info n (Nat.le_0_l _) (Nat.le_0_l _) H Hn)
    as (listed & mark & -> & Hm & Hl).
  exists listed, mark. split; [reflexivity|]. split; [exact Hm|]. split; [exact Hl|].
  unfold QA.structure_summary. rewrite H. f_equal.
  rewrite take_app_le by lia. reflexivity.
Qed.

Lemma truncation_mark_is_cut_witness :
  ∃ listed mark,
    (QA.walk_loop (u "proj") (os_walk QA.keep_dir (u "proj") wide_tree) [] 0).1
    = listed ++ [mark]
    ∧ endswith mark (u "... (truncated)")
    ∧ 100 < length listed
    ∧ QA.structure_summary (u "proj") wide_tree = join (u "\n") (take 100 listed).
Proof.
  apply (truncation_mark_is_cut (u "proj") wide_tree _
           (QA.walk_loop (u "proj") (os_walk QA.keep_dir (u "proj") wide_tree) [] 0).2).
  - vm_compute. reflexivity.
  - vm_compute. lia.
Defined.

(** ** Version-control commands that fail *)

(** X12. When every version-control command exits with a non-zero status,
    create_feature_branch still runs the three of them and returns its
    success envelope, which announces the branch as created and carries the
    standard error of the commands only as warnings. *)
Theorem failed_git_is_reported_as_success (w : World) (args : Args) (st : State)
    (feature_name : str) (rc : Z) (err : str) :
  args !! (u "feature_name") = Some (VStr feature_name) →
  rc ≠ 0%Z → exits_with w rc err →
  ∃ body st',
    Developer.create_feature_branch_handler w args st
    = (Ok [text_content
             (u "✅ Feature branch '" ++ Developer.branch_name w feature_name
              ++ u "' created successfully!\n\n" ++ body)], st')
    ∧ status_of developer_marks
        (u "✅ Feature branch '" ++ Developer.branch_name w feature_name
         ++ u "' created successfully!\n\n" ++ body) = Some Success
    ∧ endswith body (u "Warning: " ++ err)
    ∧ length (launched (trace st')) = length (launched (trace st)) + 3.
Proof.
  intros Ha Hrc Hex. unfold Developer.create_feature_branch_handler.
  rewrite (item_str_Some _ _ _ Ha), bind_ret. cbv zeta.
  change (as_str (VStr feature_name)) with feature_name.
  set (base_branch := as_str (get args (u "base_branch") (VStr (u "main")))).
  set (branch := Developer.branch_name w feature_name).
  set (c1 := [u "git"; u "checkout"; base_branch]).
  set (c2 := [u "git"; u "pull"; u "origin"; base_branch]).
  set (c3 := [u "git"; u "checkout"; u "-b"; branch]).
  destruct (Hex (now st) c1 None None) as [o1 H1].
  destruct (Hex (now (log (ERun c1 None None) st)) c2 None None) as [o2 H2].
  destruct (Hex (now (log (ERun c2 None None) (log (ERun c1 None None) st))) c3 None None)
    as [o3 H3].
  unfold try_except. unfold bind at 1. cbn [for_each].
  unfold bind at 1. rewrite (run_command_step w c1 _ [] st H1). cbv beta iota.
  unfold bind at 1. rewrite (run_command_step w c2 _ _ _ H2). cbv beta iota.
  unfold bind at 1. rewrite (run_command_step w c3 _ _ _ H3). cbv beta iota.
  unfold ret, command_output. cbn [returncode stdout stderr].
  rewrite bool_decide_eq_false_2 by exact Hrc. cbn [negb].
  eexists _, _. split; [reflexivity|]. split; [status_lit|]. split.
  - rewrite (app_assoc _ [_] [u "Warning: " ++ err]). apply join_snoc.
  - rewrite !launched_log, !length_app. cbn [length]. lia.
Qed.

Lemma failed_git_is_reported_as_success_witness :
  ∃ body st',
    Developer.create_feature_branch_handler
      (example_world [] (completes 128 (u "") (u "fatal: not a git repository")))
      branch_args start
    = (Ok [text_content
             (u "✅ Feature branch '"
              ++ Developer.branch_name
                   (example_world [] (completes 128 (u "") (u "fatal: not a git repository")))
                   (u "Add User Auth!")
              ++ u "' created successfully!\n\n" ++ body)], st')
    ∧ status_of developer_marks
        (u "✅ Feature branch '"
         ++ Developer.branch_name
              (example_world [] (completes 128 (u "") (u "fatal: not a git repository")))
              (u "Add User Auth!")
         ++ u "' created successfully!\n\n" ++ body) = Some Success
    ∧ endswith body (u "Warning: " ++ u "fatal: not a git repository")
    ∧ length (launched (trace st')) = length (launched (trace start)) + 3.
Proof.
  apply (failed_git_is_reported_as_success
           (example_world [] (completes 128 (u "") (u "fatal: not a git repository")))
           branch_args start (u "Add User Auth!") 128 (u "fatal: not a git repository")).
  - vm_compute. reflexivity.
  - discriminate.
  - intros t cmd dir tmo. exists (u ""). reflexivity.
Defined.


(** ** No retries *)

Lemma quiet_ret {A} (a : A) : quiet (ret a).
Proof. intros st. reflexivity. Qed.

Lemma quiet_raise {A} (e : exn) : quiet (raise e : M A).
Proof. intros st. reflexivity. Qed.

Lemma quiet_bind {A B} (m : M A) (k : A → M B) :
  quiet m → (∀ a, quiet (k a)) → quiet (bind m k).
Proof.
  intros Hm Hk st. unfold bind. specialize (Hm st).
  destruct (m st) as [[a|e] st']; cbn [snd] in *; [now rewrite Hk | exact Hm].
Qed.

Lemma quiet_try_except {A} (body : M A) (h : exn → M A) :
  quiet body → (∀ e, quiet (h e)) → quiet (try_except body h).
Proof.
  intros Hb Hh st. unfold try_except. specialize (Hb st).
  destruct (body st) as [[a|e] st']; cbn [snd] in *; [exact Hb | now rewrite Hh].
Qed.

Lemma quiet_call {A} (e : event) (answer : nat → exn + A) :
  match e with ERun _ _ _ => False | _ => True end → quiet (call e answer).
Proof.
  intros He st. unfold call.
  destruct (answer (now st)); cbn [snd]; rewrite launched_log; destruct e;
    first [apply app_nil_r | destruct He].
Qed.

Lemma quiet_call_unit (e : event) (answer : nat → option exn) :
  match e with ERun _ _ _ => False | _ => True end → quiet (call_unit e answer).
Proof. apply quiet_call. Qed.

Lemma quiet_getcwd w : quiet (os_getcwd w).
Proof.
  intros st. unfold os_getcwd.
  destruct (getcwd_error w (now st)); cbn [snd]; now rewrite launched_log, app_nil_r.
Qed.

Lemma quiet_chdir w d : quiet (os_chdir w d).
Proof.
  intros st. unfold os_chdir.
  destruct (chdir_to w (now st) (cwd st) d); cbn [snd trace].
  - now rewrite launched_log, app_nil_r.
  - now rewrite launched_app, app_nil_r.
Qed.

Lemma quiet_for_each {A S} (l : list A) (body : A → S → M S) (s : S) :
  (∀ x s', quiet (body x s')) → quiet (for_each l body s).
Proof.
  intros H. revert s. induction l as [|x l IH]; intros s; cbn [for_each].
  - apply quiet_ret.
  - apply quiet_bind; [apply H | exact IH].
Qed.

Lemma once_quiet {A} (m : M A) : quiet m → launches_once m.
Proof. intros H st. rewrite H. lia. Qed.

Lemma once_bind {A B} (m : M A) (k : A → M B) :
  quiet m → (∀ a, launches_once (k a)) → launches_once (bind m k).
Proof.
  intros Hm Hk st. unfold bind. specialize (Hm st).
  destruct (m st) as [[a|e] st']; cbn [snd] in *.
  - rewrite <- Hm. apply Hk.
  - rewrite Hm. lia.
Qed.

Lemma once_run {B} w cmd tmo dir (k : CompletedProcess → M B) :
  (∀ r, quiet (k r)) → launches_once (bind (subprocess_run w cmd tmo dir) k).
Proof.
  intros Hk st. unfold bind, subprocess_run, call.
  destruct (run_process w (now st) cmd dir tmo) as [e|r]; cbn [snd].
  - rewrite launched_log, length_app. cbn [length]. lia.
  - rewrite Hk, launched_log, length_app. cbn [length]. lia.
Qed.

Lemma once_try_except {A} (body : M A) (h : exn → M A) :
  launches_once body → (∀ e, quiet (h e)) → launches_once (try_except body h).
Proof.
  intros Hb Hh st. unfold try_except. specialize (Hb st).
  destruct (body st) as [[a|e] st']; cbn [snd] in *; [exact Hb | now rewrite Hh].
Qed.

Lemma once_try_finally {A} (body : M A) (fin : M unit) :
  launches_once body → quiet fin → launches_once (try_finally body fin).
Proof.
  intros Hb Hf st. unfold try_finally. specialize (Hb st).
  destruct (body st) as [r st']. specialize (Hf st'). cbn [snd] in *.
  destruct (fin st') as [[[]|e] st'']; cbn [snd] in *; now rewrite Hf.
Qed.

Ltac quiet_step :=
  lazymatch goal with
  | |- quiet (bind _ _) => apply quiet_bind; [|intros ?]
  | |- quiet (ret _) => apply quiet_ret
  | |- quiet (try_except _ _) => apply quiet_try_except; [|intros ?]
  | |- quiet (for_each _ _ _) => apply quiet_for_each; intros ? ?
  | |- quiet (QA.read_key_file _ _ _) => unfold QA.read_key_file; cbv zeta
  | |- quiet (os_getcwd _) => apply quiet_getcwd
  | |- quiet (os_chdir _ _) => apply quiet_chdir
  | |- quiet (if ?b then _ else _) => destruct b
  | |- quiet (match ?e with _ => _ end) => destruct e
  | |- quiet _ =>
      first [ apply quiet_call; exact I | apply quiet_call_unit; exact I ]
  end.

Ltac once_step :=
  lazymatch goal with
  | |- launches_once (bind (subprocess_run _ _ _ _) _) =>
      apply once_run; intros ?; repeat quiet_step
  | |- launches_once (bind _ _) => apply once_bind; [repeat quiet_step | intros ?]
  | |- launches_once (ret _) => apply once_quiet, quiet_ret
  | |- launches_once (try_finally _ _) => apply once_try_finally; [|repeat quiet_step]
  | |- launches_once (if ?b then _ else _) => destruct b
  end.

Ltac once_handler :=
  cbv zeta; apply once_try_except;
  [repeat once_step | intros ?; repeat quiet_step].

Lemma quiet_item (args : Args) key : quiet (item args key).
Proof. unfold item. destruct (args !! key); [apply quiet_ret | apply quiet_raise]. Qed.

Lemma quiet_item_str (args : Args) key : quiet (item_str args key).
Proof. unfold item_str. apply quiet_bind; [apply quiet_item | intros v; apply quiet_ret]. Qed.

Section Once.
Context (w : World) (args : Args).

Lemma generate_code_once : launches_once (Developer.generate_code_handler w args).
Proof.
  unfold Developer.generate_code_handler.
  apply once_bind; [apply quiet_item | intros feature].
  apply once_bind; [apply quiet_item | intros language]. once_handler.
Qed.

Lemma analyze_file_once : launches_once (Developer.analyze_file_handler w args).
Proof.
  unfold Developer.analyze_file_handler.
  apply once_bind; [apply quiet_item_str | intros file_path]. once_handler.
Qed.

Lemma analyze_url_content_once : launches_once (Developer.analyze_url_content_handler w args).
Proof.
  unfold Developer.analyze_url_content_handler.
  apply once_bind; [apply quiet_item | intros url].
  apply once_bind; [apply quiet_item | intros language]. once_handler.
Qed.

Lemma ask_claude_once : launches_once (Developer.ask_claude_handler w args).
Proof.
  unfold Developer.ask_claude_handler.
  apply once_bind; [apply quiet_item_str | intros prompt]. once_handler.
Qed.

Lemma review_code_once : launches_once (QA.review_code_handler w args).
Proof.
  unfold QA.review_code_handler.
  apply once_bind; [apply quiet_item_str | intros file_path]. once_handler.
Qed.

Lemma generate_tests_once : launches_once (QA.generate_tests_handler w args).
Proof.
  unfold QA.generate_tests_handler.
  apply once_bind; [apply quiet_item_str | intros source_file]. once_handler.
Qed.

Lemma performance_analysis_once : launches_once (QA.performance_analysis_handler w args).
Proof.
  unfold QA.performance_analysis_handler.
  apply once_bind; [apply quiet_item_str | intros file_path].
  apply once_bind; [apply quiet_item | intros language]. once_handler.
Qed.

Lemma code_quality_report_once : launches_once (QA.code_quality_report_handler w args).
Proof.
  unfold QA.code_quality_report_handler.
  apply once_bind; [apply quiet_item_str | intros project_path]. once_handler.
Qed.

Lemma ask_gemini_once : launches_once (QA.ask_gemini_handler w args).
Proof.
  unfold QA.ask_gemini_handler.
  apply once_bind; [apply quiet_item_str | intros prompt]. once_handler.
Qed.

End Once.

(** X13. No retries: whatever happens (missing argument, unknown tool,
    unreadable file, failed launch, expired wait, any exit status), a call
    of a tool other than create_feature_branch and security_audit launches
    at most one external process. *)
Theorem at_most_one_launch (w : World) (tool : str) (args : Args) (st : State) :
  tool ≠ u "create_feature_branch" → tool ≠ u "security_audit" →
  length (launched (trace (Developer.call_tool w tool args st).2))
  ≤ S (length (launched (trace st)))
  ∧ length (launched (trace (QA.call_tool w tool args st).2))
    ≤ S (length (launched (trace st))).
Proof.
  intros Hb Ha. split.
  - unfold Developer.call_tool. rewrite (str_eqb_false _ _ Hb).
    repeat match goal with |- context [str_eqb tool ?l] => destruct (str_eqb tool l) end.
    + apply generate_code_once.
    + apply analyze_file_once.
    + apply analyze_url_content_once.
    + apply ask_claude_once.
    + apply once_quiet, quiet_raise.
  - unfold QA.call_tool. rewrite (str_eqb_false _ _ Ha).
    repeat match goal with |- context [str_eqb tool ?l] => destruct (str_eqb tool l) end.
    + apply review_code_once.
    + apply generate_tests_once.
    + apply performance_analysis_once.
    + apply code_quality_report_once.
    + apply ask_gemini_once.
    + apply once_quiet, quiet_raise.
Qed.

Lemma at_most_one_launch_witness :
  length (launched (trace (QA.call_tool
            (example_world app_py (completes 1 (u "") (u "quota exceeded")))
            (u "generate_tests") tests_args start).2))
  ≤ S (length (launched (trace start))).
Proof.
  refine (proj2 (at_most_one_launch
            (example_world app_py (completes 1 (u "") (u "quota exceeded")))
            (u "generate_tests") tests_args start _ _)).
  - intros H. vm_compute in H. discriminate H.
  - intros H. vm_compute in H. discriminate H.
Defined.


(** ** The type of a review *)

Lemma review_keys_differ (a b : string) :
  bool_decide (utf8 a = utf8 b) = false → VStr (utf8 a) ≠ VStr (utf8 b).
Proof. intros H [= E]. apply bool_decide_eq_false in H. contradiction. Qed.

(** The template of a review type other than security, performance and
    style is the general one. *)
Lemma review_prompt_fallback (file_path code_content : str) (review_type : value) :
  review_type ∉ [VStr (u "security"); VStr (u "performance"); VStr (u "style")] →
  QA.dict_get (QA.review_prompts file_path code_content) review_type
    (QA.dict_get (QA.review_prompts file_path code_content) (VStr (u "general")) [])
  = QA.dict_get (QA.review_prompts file_path code_content) (VStr (u "general")) [].
Proof.
  rewrite !not_elem_of_cons. intros (H1 & H2 & H3 & _).
  unfold QA.review_prompts. cbn [QA.dict_get].
  rewrite (bool_decide_eq_false_2 _ H1), (bool_decide_eq_false_2 _ H2),
          (bool_decide_eq_false_2 _ H3).
  rewrite (bool_decide_eq_false_2 (VStr (u "general") = VStr (u "security")))
    by (apply review_keys_differ; vm_compute; reflexivity).
  rewrite (bool_decide_eq_false_2 (VStr (u "general") = VStr (u "performance")))
    by (apply review_keys_differ; vm_compute; reflexivity).
  rewrite (bool_decide_eq_false_2 (VStr (u "general") = VStr (u "style")))
    by (apply review_keys_differ; vm_compute; reflexivity).
  rewrite (bool_decide_eq_true_2 (VStr (u "general") = VStr (u "general"))) by reflexivity.
  now destruct (bool_decide (review_type = VStr (u "general"))).
Qed.

(** X14. A review of a type other than security, performance and style
    (an unknown type, or none given) is the general review: once the file
    is read, review_code launches exactly one process, [gemini --prompt]
    with the general template filled with the path and the content of the
    file. *)
Theorem unknown_review_type_is_general (w : World) (args : Args) (st : State)
    (file_path code_content : str) :
  args !! (u "file_path") = Some (VStr file_path) →
  get args (u "review_type") (VStr (u "general"))
    ∉ [VStr (u "security"); VStr (u "performance"); VStr (u "style")] →
  path_exists w (now st) file_path = true →
  read_text w (S (now st)) file_path = inr code_content →
  launched (trace (QA.review_code_handler w args st).2)
  = launched (trace st)
    ++ [[u "gemini"; u "--prompt";
         QA.dict_get (QA.review_prompts file_path code_content) (VStr (u "general")) []]].
Proof.
  intros Ha Ht He Hr. unfold QA.review_code_handler.
  rewrite (item_str_Some _ _ _ Ha), bind_ret. cbv zeta.
  change (as_str (VStr file_path)) with file_path.
  rewrite try_except_state by reflexivity.
  unfold bind at 1, os_path_exists, call. rewrite He. cbn [negb].
  unfold bind at 1, read_file, call. rewrite now_log, Hr.
  rewrite (review_prompt_fallback _ _ _ Ht).
  unfold bind, subprocess_run, call.
  match goal with |- context [run_process w ?t ?cmd ?dir ?tmo] =>
    destruct (run_process w t cmd dir tmo) as [e|r] end.
  - cbn [snd]. now rewrite !launched_log, !app_nil_r.
  - destruct (bool_decide (returncode r = 0%Z)); cbn [ret snd];
      now rewrite !launched_log, !app_nil_r.
Qed.

Lemma unknown_review_type_is_general_witness :
  launched (trace (QA.review_code_handler
                     (example_world app_py (completes 0 (u "LGTM") (u "")))
                     thorough_review_args start).2)
  = launched (trace start)
    ++ [[u "gemini"; u "--prompt";
         QA.dict_get (QA.review_prompts (u "app.py") (u "print(1)"))
           (VStr (u "general")) []]].
Proof.
  apply (unknown_review_type_is_general
           (example_world app_py (completes 0 (u "LGTM") (u "")))
           thorough_review_args start (u "app.py") (u "print(1)")).
  - vm_compute. reflexivity.
  - rewrite !not_elem_of_cons. repeat split;
      try (intros H; vm_compute in H; discriminate H). apply not_elem_of_nil.
  - reflexivity.
  - reflexivity.
Defined.
